(** * Rat hippocampus dataset (cebra/datasets/hippocampus.py)

    A shallow embedding of the trial-based 3-fold split of
    [SingleRatTrialSplitDataset._split], of the neighbour sweep of
    [SingleRatDataset.decode] and of the label shuffling of
    [SingleRatCorruptDataset.__init__], together with the properties the
    specification states about them.

    Conventions.  A tensor with one row per time step is a [list] of rows.
    Row offsets are [Z], positions inside Python lists and trial numbers are
    [nat].  A Python exception is a value of [exn]; code that can raise
    returns a [result].  The float comparison [!=] on the direction column is
    a parameter [fne], so that nothing is assumed about it (not even that it
    is the negation of an equality, which fails for NaN). *)

From Stdlib Require Import String Ascii DecimalString.
From Stdlib Require Import List ZArith Lia Bool Arith PeanoNat.
From Stdlib Require Import Permutation Sorted.
Import ListNotations.

Set Implicit Arguments.

(* ================================================================= *)
(** ** Python values: exceptions, indexing, slicing *)

Module Py.

Inductive exn : Type :=
| ValueError (msg : string)
| IndexError
| RuntimeError
| UnboundLocalError.

Definition result (A : Type) : Type := (exn + A)%type.

Definition ret {A} (a : A) : result A := inr a.
Definition raise {A} (e : exn) : result A := inl e.
Definition bind {A B} (c : result A) (k : A -> result B) : result B :=
  match c with
  | inl e => inl e
  | inr a => k a
  end.

(** [str(n)] for a non-negative integer. *)
Definition str (n : nat) : string := NilZero.string_of_uint (Nat.to_uint n).

(** [l[k]] on a Python list: a negative [k] counts from the end. *)
Definition getitem {A} (l : list A) (k : Z) : result A :=
  let n := Z.of_nat (length l) in
  let pos := if (k <? 0)%Z then (k + n)%Z else k in
  if ((0 <=? pos)%Z && (pos <? n)%Z)%bool then
    match nth_error l (Z.to_nat pos) with
    | Some a => ret a
    | None => raise IndexError
    end
  else raise IndexError.

(** [l[a:b]] for offsets [0 <= a] and [0 <= b] (the only ones the module
    produces): the stop is clamped to the length, and [b <= a] gives the
    empty list. *)
Definition slice {A} (a b : nat) (l : list A) : list A :=
  firstn (b - a) (skipn a l).

(** [l[1::2]]: every second element, starting at offset 1. *)
Fixpoint slice_1_2 {A} (l : list A) : list A :=
  match l with
  | _ :: x :: t => x :: slice_1_2 t
  | _ => []
  end.

(** Monadic map over a list, left to right (a list comprehension whose
    body can raise). *)
Fixpoint mapM {A B} (f : A -> result B) (l : list A) : result (list B) :=
  match l with
  | [] => ret []
  | x :: t => bind (f x) (fun y => bind (mapM f t) (fun ys => ret (y :: ys)))
  end.

End Py.

Import Py.

Declare Scope py_scope.
Delimit Scope py_scope with py.
Notation "x <- c ;; k" := (Py.bind c (fun x => k))
  (at level 61, c at next level, right associativity) : py_scope.
Notation "' pat <- c ;; k" := (Py.bind c (fun x => match x with pat => k end))
  (at level 61, pat pattern, c at next level, right associativity) : py_scope.

(* ================================================================= *)
(** ** numpy *)

Module np.

(** [np.arange(n)] *)
Definition arange (n : nat) : list nat := seq 0 n.

(** [np.where(mask)[0]]: the positions that hold [True]. *)
Fixpoint where_from (i : Z) (mask : list bool) : list Z :=
  match mask with
  | [] => []
  | b :: m => if b then i :: where_from (i + 1) m else where_from (i + 1) m
  end.

Definition where_ (mask : list bool) : list Z := where_from 0 mask.

(** Elementwise binary operation on two arrays of the same length. *)
Fixpoint map2 {A B C} (f : A -> B -> C) (l : list A) (r : list B) : list C :=
  match l, r with
  | x :: l', y :: r' => f x y :: map2 f l' r'
  | _, _ => []
  end.

(** [a[mask]] with a boolean mask as long as [a]. *)
Fixpoint mask_select {A} (mask : list bool) (a : list A) : list A :=
  match mask, a with
  | b :: m, x :: t => if b then x :: mask_select m t else mask_select m t
  | _, _ => []
  end.

(** [np.cumsum] *)
Fixpoint cumsum_from (acc : Z) (l : list Z) : list Z :=
  match l with
  | [] => []
  | x :: t => (acc + x)%Z :: cumsum_from (acc + x) t
  end.

Definition cumsum (l : list Z) : list Z := cumsum_from 0 l.

(** [np.array_split(ary, sections)]: the first [len % sections] pieces
    have [len // sections + 1] elements, the others [len // sections];
    the pieces are cut at the cumulated sizes. *)
Definition section_sizes (ntotal nsections : nat) : list nat :=
  repeat (S (ntotal / nsections)) (ntotal mod nsections)
    ++ repeat (ntotal / nsections) (nsections - ntotal mod nsections).

Fixpoint div_points_from (acc : nat) (sizes : list nat) : list nat :=
  match sizes with
  | [] => []
  | s :: t => (acc + s) :: div_points_from (acc + s) t
  end.

Definition div_points (ntotal nsections : nat) : list nat :=
  div_points_from 0 (0 :: section_sizes ntotal nsections).

Definition array_split {A} (ary : list A) (nsections : nat) : list (list A) :=
  let dp := div_points (length ary) nsections in
  map (fun i => slice (nth i dp 0) (nth (S i) dp 0) ary) (seq 0 nsections).

(** [a[idx]] with an array of positions. *)
Definition take {A} (a : list A) (idx : list nat) : result (list A) :=
  mapM (fun p => match nth_error a p with
                 | Some x => ret x
                 | None => raise IndexError
                 end) idx.

(** The element type of [np.concatenate([a, b])] for two Python lists of
    numpy integers: an empty list is converted to a float64 array, and the
    result is then float64. *)
Inductive dtype : Type := int64 | float64.

Definition concatenate_dtype (a b : list nat) : dtype :=
  match a, b with
  | _ :: _, _ :: _ => int64
  | _, _ => float64
  end.



End np.

(* ================================================================= *)
(** ** sklearn.model_selection.KFold(n_splits, shuffle=False) *)

Module KFold.

(** [_iter_test_indices]: the first [n_samples % n_splits] folds have
    [n_samples // n_splits + 1] elements, the others
    [n_samples // n_splits]; the folds are consecutive blocks of
    [arange(n_samples)]. *)
Definition fold_sizes (n_splits n_samples : nat) : list nat :=
  map (fun i => n_samples / n_splits
                + (if i <? n_samples mod n_splits then 1 else 0))
      (seq 0 n_splits).

Fixpoint iter_test_indices (indices : list nat) (current : nat)
         (sizes : list nat) : list (list nat) :=
  match sizes with
  | [] => []
  | fold_size :: rest =>
      slice current (current + fold_size) indices
        :: iter_test_indices indices (current + fold_size) rest
  end.

(** [_iter_test_masks]: [test_mask = zeros(n); test_mask[test_index] = True] *)
Definition test_mask (n_samples : nat) (test_index : list nat) : list bool :=
  map (fun i => existsb (Nat.eqb i) test_index) (seq 0 n_samples).

(** [split(X)], forced into a list of [(train_index, test_index)] pairs. *)
Definition split {A} (n_splits : nat) (X : list A)
  : result (list (list nat * list nat)) :=
  let n_samples := length X in
  if n_samples <? n_splits then
    raise (ValueError
             ("Cannot have number of splits n_splits=" ++ str n_splits
              ++ " greater than the number of samples: n_samples="
              ++ str n_samples ++ ".")%string)
  else
    let indices := np.arange n_samples in
    ret (map (fun test_index =>
                let mask := test_mask n_samples test_index in
                (np.mask_select (map negb mask) indices,
                 np.mask_select mask indices))
             (iter_test_indices indices 0 (fold_sizes n_splits n_samples))).

End KFold.

(* ================================================================= *)
(** ** Trial boundaries (lines 122-126 of [_split]) *)

Section Boundaries.

Context {Label F : Type}.
(** Column 1 of a behaviour row, and [!=] on its values. *)
Variable direction : Label -> F.
Variable fne : F -> F -> bool.

(** [self.index[1:, 1] != self.index[:-1, 1]] *)
Definition direction_change_mask (index : list Label) : list bool :=
  np.map2 fne (map direction (tl index)) (map direction (removelast index)).

Definition direction_change_idx (index : list Label) : list Z :=
  np.where_ (direction_change_mask index).

(** [np.append(np.insert(direction_change_idx[1::2], 0, 0), len(self.index))] *)
Definition trial_change_idx (index : list Label) : list Z :=
  (0%Z :: slice_1_2 (direction_change_idx index))
    ++ [Z.of_nat (length index)].

Definition total_trials_num (index : list Label) : nat :=
  length (trial_change_idx index) - 1.

End Boundaries.

(** The rows of trial [i]: [t[trial_change_idx[i]:trial_change_idx[i + 1]]]. *)
Definition trial_rows {A} (tci : list Z) (t : list A) (i : nat) : result (list A) :=
  (a <- getitem tci (Z.of_nat i) ;;
   b <- getitem tci (Z.of_nat i + 1) ;;
   ret (slice (Z.to_nat a) (Z.to_nat b) t))%py.

(* ================================================================= *)
(** ** torch *)

Module torch.

(** [torch.cat(tensors)] along the rows; an empty list of tensors is
    refused. *)
Definition cat {A} (tensors : list (list A)) : result (list A) :=
  match tensors with
  | [] => raise RuntimeError
  | _ => ret (concat tensors)
  end.

End torch.

(* ================================================================= *)
(** ** SingleRatDataset *)

Module SingleRatDataset.

Record t (Row Label : Type) : Type := mk {
  neural : list Row;
  index : list Label;
  name : string
}.

(** [__init__]: [spikes] and [position] are the two arrays of the file
    loaded for [name]. *)
Definition init {Row Label} (name : string)
           (spikes : list Row) (position : list Label) : t Row Label :=
  {| neural := spikes; index := position; name := name |}.



Section Decode.

Context {X Y Metric : Type}.
(** For [knn = KNeighborsRegressor(n_neighbors=n)] fitted on the train
    set: [np.median(abs(knn.predict(x_test)[:, 0] - y_test[:, 0]))] and
    [knn.score(x_test, y_test)]. *)
Variable median_abs_err : Z -> X -> Y -> X -> Y -> Metric.
Variable r2_score : Z -> X -> Y -> X -> Y -> Metric.


End Decode.

End SingleRatDataset.

(* ================================================================= *)
(** ** SingleRatTrialSplitDataset *)

Module SingleRatTrialSplitDataset.

Record t (Row Label : Type) : Type := mk {
  neural : list Row;
  index : list Label;
  name : string;
  split_no : Z;
  split_name : option string;
  selected_indices : option (list (Z * Z));
  concat_idx : option (list Z)
}.

(** *** Methods: state and exceptions *)

Definition M (S A : Type) : Type := S -> result A * S.

Definition mret {S A} (a : A) : M S A := fun s => (inr a, s).
Definition mbind {S A B} (c : M S A) (k : A -> M S B) : M S B :=
  fun s => match c s with
           | (inl e, s') => (inl e, s')
           | (inr a, s') => k a s'
           end.
Definition lift {S A} (r : result A) : M S A := fun s => (r, s).
Definition gets {S A} (f : S -> A) : M S A := fun s => (inr (f s), s).
Definition modify {S} (f : S -> S) : M S unit := fun s => (inr tt, f s).

(** *** The loop over the outer folds (lines 136-152) *)

Record locals : Type := mk_locals {
  train_trials : list nat;
  valid_trials : list nat;
  test_trials : list nat;
  trials : option (list nat)
}.

Definition locals0 : locals :=
  {| train_trials := []; valid_trials := []; test_trials := [];
     trials := None |}.

(** One iteration.  The five assignments to [trials] of lines 148-152 are
    part of the body; the last one stays.  [np.array_split(_, 2)] returns
    two pieces, so the unpacking of line 143 does not fail. *)
Definition loop_body (split_no : Z) (total_trials_num : nat)
           (l : locals) (out_fold : list nat) : result locals :=
  (folds <- KFold.split 3 out_fold ;;
   ' (train_trial, val_test_trial) <- getitem folds split_no ;;
   match np.array_split val_test_trial 2 with
   | [test_trial; valid_trial] =>
       tr <- np.take out_fold train_trial ;;
       va <- np.take out_fold valid_trial ;;
       te <- np.take out_fold test_trial ;;
       let train_trials := train_trials l ++ tr in
       let valid_trials := valid_trials l ++ va in
       let test_trials := test_trials l ++ te in
       let trials := train_trials in
       let trials := valid_trials in
       let trials := test_trials in
       let trials := np.arange total_trials_num in
       let trials := train_trials ++ valid_trials in
       ret {| train_trials := train_trials; valid_trials := valid_trials;
              test_trials := test_trials; trials := Some trials |}
   | _ => raise (ValueError "wrong number of values to unpack")
   end)%py.

Fixpoint for_each {S A} (body : S -> A -> result S) (l : list A) (s : S)
  : result S :=
  match l with
  | [] => ret s
  | x :: rest => (s' <- body s x ;; for_each body rest s')%py
  end.

Definition outer_folds (total_trials_num : nat) : list (list nat) :=
  np.array_split (np.arange total_trials_num) 3.

Definition fold_trials (split_no : Z) (total_trials_num : nat) : result locals :=
  for_each (loop_body split_no total_trials_num)
           (outer_folds total_trials_num) locals0.

(** *** After the loop (lines 153-171) *)

Definition invalid_split_msg (split : string) : string :=
  ("'" ++ split ++ "' is not a valid split. Use 'train', 'valid' or 'test'")%string.

(** [slice(trial_change_idx[i], trial_change_idx[i + 1])] *)
Definition trial_slice (tci : list Z) (i : nat) : result (Z * Z) :=
  (a <- getitem tci (Z.of_nat i) ;;
   b <- getitem tci (Z.of_nat i + 1) ;;
   ret (a, b))%py.

(** [np.cumsum([trial_change_idx[i + 1] - trial_change_idx[i] for i in trials])] *)
Definition cumulated_len (tci : list Z) (trials : list nat) : result (list Z) :=
  (lens <- mapM (fun i => ' (a, b) <- trial_slice tci i ;; ret (b - a)%Z) trials ;;
   ret (np.cumsum lens))%py.

(** [cumulated_len[:-1][np.array(trials[:-1]) + 1 != trials[1:]]] *)
Definition discontinuities (tci : list Z) (trials : list nat) : result (list Z) :=
  (cl <- cumulated_len tci trials ;;
   ret (np.mask_select
          (np.map2 (fun a b => negb (a =? b)) (map (fun i => i + 1) (removelast trials))
                   (tl trials))
          (removelast cl)))%py.

Section Split.

Context {Row Label F : Type}.
Variable direction : Label -> F.
Variable fne : F -> F -> bool.

Let self : Type := t Row Label.

Definition set_selected_indices (v : list (Z * Z)) (s : self) : self :=
  {| neural := neural s; index := index s; name := name s;
     split_no := split_no s; split_name := split_name s;
     selected_indices := Some v; concat_idx := concat_idx s |}.

Definition set_neural (v : list Row) (s : self) : self :=
  {| neural := v; index := index s; name := name s;
     split_no := split_no s; split_name := split_name s;
     selected_indices := selected_indices s; concat_idx := concat_idx s |}.

Definition set_index (v : list Label) (s : self) : self :=
  {| neural := neural s; index := v; name := name s;
     split_no := split_no s; split_name := split_name s;
     selected_indices := selected_indices s; concat_idx := concat_idx s |}.

Definition set_concat_idx (v : list Z) (s : self) : self :=
  {| neural := neural s; index := index s; name := name s;
     split_no := split_no s; split_name := split_name s;
     selected_indices := selected_indices s; concat_idx := Some v |}.

(** Lines 157-171, for the trial list [trials]. *)
Definition assemble (tci : list Z) (trials : list nat) : M self unit :=
  mbind (lift (mapM (trial_slice tci) trials)) (fun sel =>
  mbind (modify (set_selected_indices sel)) (fun _ =>
  mbind (gets (@neural Row Label)) (fun self_neural =>
  mbind (lift (segs <- mapM (trial_rows tci self_neural) trials ;;
               torch.cat segs)%py) (fun new_neural =>
  mbind (modify (set_neural new_neural)) (fun _ =>
  mbind (gets (@index Row Label)) (fun self_index =>
  mbind (lift (segs <- mapM (trial_rows tci self_index) trials ;;
               torch.cat segs)%py) (fun new_index =>
  mbind (modify (set_index new_index)) (fun _ =>
  mbind (lift (discontinuities tci trials)) (fun d =>
  modify (set_concat_idx d)))))))))).

(** [_split].  In the source the [else] of line 153 follows the body of
    the [for] of line 140 at the indentation of the [for]: it is the
    [else] clause of the loop, which runs whenever the loop ends without
    [break].  The array that line 152 leaves in [trials] is float64 when the
    train or the valid list is empty; [trial_change_idx[i]] (line 158) then
    raises IndexError for its first element. *)
Definition _split (split : string) : M self unit :=
  mbind (gets (@index Row Label)) (fun self_index =>
  let tci := trial_change_idx direction fne self_index in
  let total_trials_num := length tci - 1 in
  mbind (gets (@split_no Row Label)) (fun k =>
  mbind (lift (fold_trials k total_trials_num)) (fun l =>
  mbind (lift (raise (ValueError (invalid_split_msg split)))) (fun _ : unit =>
  mbind (lift (match trials l with
               | Some trials => ret trials
               | None => raise UnboundLocalError
               end)) (fun trials =>
  match np.concatenate_dtype (train_trials l) (valid_trials l), trials with
  | np.float64, _ :: _ => lift (raise IndexError)
  | _, _ => assemble tci trials
  end))))).

(** [__init__], on the two arrays loaded for [name]. *)
Definition init (name : string) (spikes : list Row) (position : list Label)
           (split_no : Z) (split : option string) : result unit * self :=
  let s := {| neural := spikes; index := position; name := name;
              split_no := split_no; split_name := split;
              selected_indices := None; concat_idx := None |} in
  match split with
  | Some sp => _split sp s
  | None => (inr tt, s)
  end.

End Split.

End SingleRatTrialSplitDataset.

(* ================================================================= *)
(** ** SingleRatCorruptDataset *)

Module SingleRatCorruptDataset.

Section Corrupt.

Context {Row Label BitGen : Type}.
(** The state of [np.random.PCG64(seed)] for a seed that is accepted, and
    the draw of an integer of [0..bound] that [Generator.shuffle] makes, with
    the generator's next state. *)
Variable PCG64 : Z -> BitGen.
Variable random_interval : BitGen -> nat -> nat * BitGen.

(** [np.random.PCG64(seed)] for an integer seed: a negative seed is refused
    when the seed sequence is built. *)
Definition new_PCG64 (seed : Z) : result BitGen :=
  if (seed <? 0)%Z then raise (ValueError "expected non-negative integer")
  else ret (PCG64 seed).

(** [x[i] = v] *)
Fixpoint setitem (x : list nat) (i : nat) (v : nat) : list nat :=
  match x, i with
  | [], _ => []
  | _ :: t, 0 => v :: t
  | h :: t, S i' => h :: setitem t i' v
  end.

(** [x[i], x[j] = x[j], x[i]]; both positions are inside [x] when the
    draw is in [0..i]. *)
Definition swap (x : list nat) (i j : nat) : list nat :=
  match nth_error x i, nth_error x j with
  | Some a, Some b => setitem (setitem x i b) j a
  | _, _ => x
  end.

(** [Generator.shuffle] of a one-dimensional array:
    [for i in reversed(range(1, n)): j = interval(i); swap x[i], x[j]],
    started with [i = n - 1]. *)
Fixpoint shuffle_loop (i : nat) (g : BitGen) (x : list nat) : list nat :=
  match i with
  | 0 => x
  | S i' =>
      let '(j, g') := random_interval g i in
      shuffle_loop i' g' (swap x i j)
  end.

Definition shuffle (g : BitGen) (x : list nat) : list nat :=
  shuffle_loop (length x - 1) g x.

Definition init (name : string) (seed : Z)
           (spikes : list Row) (position : list Label)
  : result (SingleRatDataset.t Row Label) :=
  let self := SingleRatDataset.init name spikes position in
  (rng <- new_PCG64 seed ;;
   let shuffled_index :=
     shuffle rng (np.arange (length (SingleRatDataset.index self))) in
   new_index <- np.take (SingleRatDataset.index self) shuffled_index ;;
   ret {| SingleRatDataset.neural := SingleRatDataset.neural self;
          SingleRatDataset.index := new_index;
          SingleRatDataset.name := SingleRatDataset.name self |})%py.

End Corrupt.

End SingleRatCorruptDataset.

(* ================================================================= *)
(** ** Concrete recordings used in the examples *)

(** The direction column of the specification's scenario. *)
Definition scenario_direction : list Z := [1; 1; -1; -1; 1; 1; -1]%Z.

(** [!=] on integers. *)
Definition zne (a b : Z) : bool := negb (a =? b)%Z.

(** A recording of [steps] time steps whose direction alternates at every
    step, which makes [steps / 2] trials.  A behaviour row is
    (position, direction); a neural row is one spike count. *)
Definition alternating_index (steps : nat) : list (Z * Z) :=
  map (fun i => (Z.of_nat i, if Nat.even i then 1 else -1)%Z) (seq 0 steps).

Definition alternating_neural (steps : nat) : list Z :=
  map (fun i => Z.of_nat (i * i)) (seq 0 steps).

Definition alternating_rat (steps : nat) (split_no : Z)
  : SingleRatTrialSplitDataset.t Z (Z * Z) :=
  {| SingleRatTrialSplitDataset.neural := alternating_neural steps;
     SingleRatTrialSplitDataset.index := alternating_index steps;
     SingleRatTrialSplitDataset.name := "achilles";
     SingleRatTrialSplitDataset.split_no := split_no;
     SingleRatTrialSplitDataset.split_name := None;
     SingleRatTrialSplitDataset.selected_indices := None;
     SingleRatTrialSplitDataset.concat_idx := None |}.

(** A bit generator for the examples: the state is a 64-bit integer, the
    seed is the first state, a draw of [0..bound] is the state modulo
    [bound + 1], and the next state is given by a linear congruence. *)
Definition example_PCG64 (seed : Z) : Z := (seed mod 2 ^ 64)%Z.

Definition example_interval (g : Z) (bound : nat) : nat * Z :=
  (Z.to_nat (g mod (Z.of_nat bound + 1)),
   ((g * 6364136223846793005 + 1442695040888963407) mod 2 ^ 64)%Z).

(** Nine trials, and eighteen. *)
Definition rat9 : Z -> SingleRatTrialSplitDataset.t Z (Z * Z) := alternating_rat 18.
Definition rat18 : Z -> SingleRatTrialSplitDataset.t Z (Z * Z) := alternating_rat 36.

(* ================================================================= *)
(** ** Vocabulary of the statements *)

(** [n] elements cut into [k] consecutive blocks of nearly equal size, the
    leftover going to the earliest blocks: size of block [i] and position
    of its first element. *)
Definition block_size (k n i : nat) : nat :=
  n / k + (if i <? n mod k then 1 else 0).

Definition block_start (k n i : nat) : nat :=
  i * (n / k) + Nat.min i (n mod k).

(** The positions [0 .. m-1] without the block, and the block. *)
Definition around_block (m start size : nat) : list nat * list nat :=
  (seq 0 start ++ seq (start + size) (m - (start + size)), seq start size).

(** Inside an outer fold of [m] trials, for fold index [k]: the positions
    of the train part (everything around block [k] of the 3-fold cut) and of
    the remainder part (block [k]). *)
Definition train_positions (k : Z) (m : nat) : list nat :=
  fst (around_block m (block_start 3 m (Z.to_nat k)) (block_size 3 m (Z.to_nat k))).

Definition remainder_positions (k : Z) (m : nat) : list nat :=
  snd (around_block m (block_start 3 m (Z.to_nat k)) (block_size 3 m (Z.to_nat k))).

(** The trials of [out_fold] at the given positions. *)
Definition trials_at (out_fold : list nat) (positions : list nat) : list nat :=
  map (fun p => nth p out_fold 0) positions.

(** What one iteration of the loop adds to the three lists, for an outer
    fold that is long enough: the train part; the second half of the
    remainder part to the valid list and its first half, which has the extra
    element of an odd remainder, to the test list. *)
Definition add_fold (k : Z) (l : SingleRatTrialSplitDataset.locals)
           (out_fold : list nat) : SingleRatTrialSplitDataset.locals :=
  let m := length out_fold in
  let h := (length (remainder_positions k m) + 1) / 2 in
  let tr := SingleRatTrialSplitDataset.train_trials l
              ++ trials_at out_fold (train_positions k m) in
  let va := SingleRatTrialSplitDataset.valid_trials l
              ++ trials_at out_fold (skipn h (remainder_positions k m)) in
  let te := SingleRatTrialSplitDataset.test_trials l
              ++ trials_at out_fold (firstn h (remainder_positions k m)) in
  {| SingleRatTrialSplitDataset.train_trials := tr;
     SingleRatTrialSplitDataset.valid_trials := va;
     SingleRatTrialSplitDataset.test_trials := te;
     SingleRatTrialSplitDataset.trials := Some (tr ++ va) |}.

(** The trials of the three lists together. *)
Definition all_assigned (l : SingleRatTrialSplitDataset.locals) : list nat :=
  SingleRatTrialSplitDataset.train_trials l
    ++ SingleRatTrialSplitDataset.valid_trials l
    ++ SingleRatTrialSplitDataset.test_trials l.

(** The rows of trial [i] in a tensor [t], between its two boundaries. *)
Definition rows_of {A} (tci : list Z) (t : list A) (i : nat) : list A :=
  slice (Z.to_nat (nth i tci 0%Z)) (Z.to_nat (nth (S i) tci 0%Z)) t.

(** Number of rows of trial [i]. *)
Definition segment_length (tci : list Z) (i : nat) : Z :=
  (nth (S i) tci 0 - nth i tci 0)%Z.

(** Number of rows of the first [p + 1] selected trials together: the
    offset in the concatenation where the segment at position [p + 1]
    starts. *)
Definition offset_after (tci : list Z) (trials : list nat) (p : nat) : Z :=
  fold_right Z.add 0%Z (map (segment_length tci) (firstn (S p) trials)).

(** The positions [p] of the selected list whose next trial is not the
    trial that follows in the recording. *)
Definition gap_positions (trials : list nat) : list nat :=
  filter (fun p => negb (nth p trials 0 + 1 =? nth (S p) trials 0))
         (seq 0 (length trials - 1)).

Definition strictly_increasing (l : list Z) : Prop := StronglySorted Z.lt l.

(** The three lists are in ascending order and hold trial numbers below
    [b] only. *)
Definition ascending_below (b : nat) (l : SingleRatTrialSplitDataset.locals) : Prop :=
  StronglySorted lt (SingleRatTrialSplitDataset.train_trials l)
  /\ StronglySorted lt (SingleRatTrialSplitDataset.valid_trials l)
  /\ StronglySorted lt (SingleRatTrialSplitDataset.test_trials l)
  /\ (forall x, In x (all_assigned l) -> x < b).

(** The trials held out of training: the valid list followed by the test
    list. *)
Definition held_out (l : SingleRatTrialSplitDataset.locals) : list nat :=
  SingleRatTrialSplitDataset.valid_trials l
    ++ SingleRatTrialSplitDataset.test_trials l.

(* ================================================================= *)
(** ** Properties *)

Section BoundaryFacts.

Context {Label F : Type}.
Variable direction : Label -> F.
Variable fne : F -> F -> bool.

Lemma where_from_bounds (mask : list bool) (i x : Z) :
  In x (np.where_from i mask) -> (i <= x < i + Z.of_nat (length mask))%Z.
Proof.
  revert i; induction mask as [|b m IH]; intros i; simpl; [tauto|].
  destruct b; simpl; intros H.
  - destruct H as [<- | H]; [lia | apply IH in H; lia].
  - apply IH in H; lia.
Qed.

Lemma where_from_sorted (mask : list bool) (i : Z) :
  strictly_increasing (np.where_from i mask).
Proof.
  revert i; induction mask as [|b m IH]; intros i; simpl.
  - constructor.
  - destruct b; [|apply IH].
    constructor; [apply IH|].
    apply Forall_forall; intros x H. apply where_from_bounds in H; lia.
Qed.

Lemma slice_1_2_In_aux {A} (l : list A) :
  (forall x, In x (slice_1_2 l) -> In x l)
  /\ (forall a x, In x (slice_1_2 (a :: l)) -> In x l).
Proof.
  induction l as [|b t [IH1 IH2]]; split; simpl; try tauto.
  - intros x Hx. destruct t as [|c t']; [inversion Hx|].
    right. apply (IH2 b x Hx).
  - intros _ x [<- | Hx]; [now left | right; now apply IH1].
Qed.

Lemma slice_1_2_In {A} (l : list A) (x : A) :
  In x (slice_1_2 l) -> In x l.
Proof. apply slice_1_2_In_aux. Qed.

Lemma slice_1_2_tail_In {A} (a : A) (l : list A) (x : A) :
  In x (slice_1_2 (a :: l)) -> In x l.
Proof. apply slice_1_2_In_aux. Qed.

Lemma slice_1_2_sorted_aux (l : list Z) :
  strictly_increasing l ->
  strictly_increasing (slice_1_2 l)
  /\ (forall a, strictly_increasing (slice_1_2 (a :: l))).
Proof.
  induction l as [|b t IH]; intros Hs.
  - split; [constructor | intros a; constructor].
  - inversion Hs as [|? ? Ht Hb]; subst.
    destruct (IH Ht) as [IH1 IH2]. split; [apply IH2|].
    intros a. simpl. constructor; [exact IH1|].
    apply Forall_forall; intros x Hx. apply slice_1_2_In in Hx.
    rewrite Forall_forall in Hb. now apply Hb.
Qed.

Lemma app_last_sorted (l : list Z) (z : Z) :
  strictly_increasing l -> (forall x, In x l -> (x < z)%Z) ->
  strictly_increasing (l ++ [z]).
Proof.
  induction l as [|a t IH]; intros Hs Hlt; simpl.
  - constructor; constructor.
  - inversion Hs as [|? ? Ht Ha]; subst.
    constructor.
    + apply IH; [exact Ht | intros x Hx; apply Hlt; now right].
    + apply Forall_app; split; [exact Ha|].
      constructor; [apply Hlt; now left | constructor].
Qed.

Lemma map2_length {A B C} (f : A -> B -> C) (l : list A) (r : list B) :
  length (np.map2 f l r) = Nat.min (length l) (length r).
Proof.
  revert r; induction l as [|x l IH]; intros [|y r]; simpl; auto.
Qed.

Lemma removelast_length {A} (l : list A) :
  length (removelast l) = length l - 1.
Proof.
  rewrite removelast_firstn_len, length_firstn. lia.
Qed.

Lemma direction_change_mask_length (index : list Label) :
  length (direction_change_mask direction fne index) = length index - 1.
Proof.
  unfold direction_change_mask.
  rewrite map2_length, !length_map, removelast_length.
  destruct index; simpl; lia.
Qed.

Lemma trial_change_idx_sorted (index : list Label) :
  index <> [] -> strictly_increasing (trial_change_idx direction fne index).
Proof.
  intros Hne. unfold trial_change_idx.
  assert (Hb : forall x, In x (slice_1_2 (direction_change_idx direction fne index)) ->
                         (0 < x < Z.of_nat (length index))%Z).
  { intros x Hx. unfold direction_change_idx, np.where_ in Hx.
    pose proof (direction_change_mask_length index) as Hlen.
    destruct (direction_change_mask direction fne index) as [|b m];
      [inversion Hx|].
    simpl np.where_from in Hx.
    assert (Hin : In x (np.where_from (0 + 1) m)).
    { destruct b; [exact (slice_1_2_tail_In _ _ _ Hx)|].
      apply slice_1_2_In in Hx. exact Hx. }
    apply where_from_bounds in Hin.
    change (length (b :: m)) with (S (length m)) in Hlen. lia. }
  apply app_last_sorted.
  - constructor.
    + apply slice_1_2_sorted_aux. apply where_from_sorted.
    + apply Forall_forall. intros x Hx. apply Hb in Hx. lia.
  - intros x [<- | Hx]; [|apply Hb in Hx; lia].
    destruct index; [congruence | simpl; lia].
Qed.

Lemma firstn_skipn_add {A} (n m : nat) (u : list A) :
  firstn n u ++ firstn m (skipn n u) = firstn (n + m) u.
Proof.
  revert u; induction n as [|n IH]; intros u; [reflexivity|].
  destruct u as [|x u]; simpl; [now rewrite firstn_nil|].
  now rewrite IH.
Qed.

Lemma slice_app {A} (a b c : nat) (t : list A) :
  a <= b -> b <= c -> slice a b t ++ slice b c t = slice a c t.
Proof.
  intros Hab Hbc. unfold slice.
  replace (skipn b t) with (skipn (b - a) (skipn a t))
    by (rewrite skipn_skipn; f_equal; lia).
  rewrite firstn_skipn_add. f_equal. lia.
Qed.

Lemma sorted_last_ge (rest : list Z) (b0 : Z) :
  strictly_increasing (b0 :: rest) -> (b0 <= last (b0 :: rest) 0)%Z.
Proof.
  revert b0; induction rest as [|b1 r IH]; intros b0 Hs; [simpl; lia|].
  inversion Hs as [|? ? Hs' Hlt]; subst.
  inversion Hlt as [|? ? Hb _]; subst.
  specialize (IH b1 Hs').
  change (last (b0 :: b1 :: r) 0%Z) with (last (b1 :: r) 0%Z). lia.
Qed.

(** The segments between consecutive boundaries, one after the other, are
    the rows from the first boundary to the last one. *)
Lemma concat_rows {A} (t : list A) (rest : list Z) (b0 : Z) :
  (0 <= b0)%Z -> strictly_increasing (b0 :: rest) ->
  concat (map (rows_of (b0 :: rest) t) (seq 0 (length rest)))
  = slice (Z.to_nat b0) (Z.to_nat (last (b0 :: rest) 0%Z)) t.
Proof.
  revert b0; induction rest as [|b1 r IH]; intros b0 H0 Hs.
  - cbn. unfold slice. now rewrite Nat.sub_diag.
  - inversion Hs as [|? ? Hs' Hlt]; subst.
    inversion Hlt as [|? ? Hb _]; subst.
    pose proof (sorted_last_ge Hs') as Hl.
    cbn [length]. rewrite <- cons_seq, <- seq_shift, map_cons, map_map.
    cbn [concat].
    rewrite (map_ext (fun i => rows_of (b0 :: b1 :: r) t (S i)) (rows_of (b1 :: r) t))
      by reflexivity.
    rewrite IH by (try assumption; lia).
    change (last (b0 :: b1 :: r) 0%Z) with (last (b1 :: r) 0%Z).
    unfold rows_of. cbn [nth]. apply slice_app; lia.
Qed.

(** C4. For a non-empty recording the boundary list is strictly
    increasing, starts at 0, ends at the recording length and has one
    element more than there are trials; the segments between consecutive
    boundaries, taken in order, make up the whole recording. *)
Theorem trial_change_idx_boundaries (index : list Label) :
  index <> [] ->
  let tci := trial_change_idx direction fne index in
  strictly_increasing tci
  /\ hd_error tci = Some 0%Z
  /\ last tci 0%Z = Z.of_nat (length index)
  /\ length tci = total_trials_num direction fne index + 1
  /\ (forall (A : Type) (t : list A),
         length t = length index ->
         concat (map (rows_of tci t) (seq 0 (total_trials_num direction fne index)))
         = t).
Proof.
  intros Hne tci.
  pose proof (trial_change_idx_sorted Hne) as Hs. fold tci in Hs.
  assert (Hlast : last tci 0%Z = Z.of_nat (length index)).
  { unfold tci, trial_change_idx. apply last_last. }
  split; [exact Hs|]. split; [reflexivity|]. split; [exact Hlast|].
  split.
  - unfold total_trials_num. fold tci. unfold tci, trial_change_idx.
    simpl. rewrite length_app. simpl. lia.
  - intros A t Ht. unfold total_trials_num. fold tci.
    revert Hs Hlast. unfold tci, trial_change_idx.
    cbn [app length].
    generalize (slice_1_2 (direction_change_idx direction fne index)
                  ++ [Z.of_nat (length index)]).
    intros rest Hs Hlast.
    replace (S (length rest) - 1) with (length rest) by lia. rewrite concat_rows by (try exact Hs; lia).
    rewrite Hlast, Nat2Z.id. unfold slice. cbn [skipn Z.to_nat].
    rewrite Nat.sub_0_r, <- Ht. apply firstn_all.
Qed.

End BoundaryFacts.

(* ================================================================= *)
(** ** Lists, masks and slices *)

Lemma mapM_ok {A B} (f : A -> result B) (g : A -> B) (l : list A) :
  (forall x, In x l -> f x = inr (g x)) -> mapM f l = inr (map g l).
Proof.
  induction l as [|x l IH]; simpl; intros H; [reflexivity|].
  rewrite (H x) by now left. simpl.
  rewrite IH; [reflexivity|]. intros y Hy. apply H. now right.
Qed.

Section ListFacts.

Context {A : Type}.

Lemma mask_select_map (f : A -> bool) (l : list A) :
  np.mask_select (map f l) l = filter f l.
Proof.
  induction l as [|x l IH]; simpl; [reflexivity|].
  destruct (f x); now rewrite IH.
Qed.

Lemma filter_all (f : A -> bool) (l : list A) :
  (forall x, In x l -> f x = true) -> filter f l = l.
Proof.
  induction l as [|x l IH]; simpl; intros H; [reflexivity|].
  rewrite (H x) by now left. f_equal. apply IH. intros y Hy. apply H. now right.
Qed.

Lemma filter_none (f : A -> bool) (l : list A) :
  (forall x, In x l -> f x = false) -> filter f l = [].
Proof.
  induction l as [|x l IH]; simpl; intros H; [reflexivity|].
  rewrite (H x) by now left. apply IH. intros y Hy. apply H. now right.
Qed.

Lemma take_ok (a : list A) (d : A) (idx : list nat) :
  (forall p, In p idx -> p < length a) ->
  np.take a idx = inr (map (fun p => nth p a d) idx).
Proof.
  intros H. unfold np.take. apply mapM_ok. intros p Hp.
  rewrite (nth_error_nth' a d (H p Hp)). reflexivity.
Qed.

Lemma map_nth_seq (l : list A) (d : A) :
  map (fun p => nth p l d) (seq 0 (length l)) = l.
Proof.
  induction l as [|x l IH]; simpl; [reflexivity|].
  f_equal. rewrite <- seq_shift, map_map. exact IH.
Qed.

End ListFacts.

Lemma existsb_eqb_seq (i a s : nat) :
  existsb (Nat.eqb i) (seq a s) = ((a <=? i) && (i <? a + s))%bool.
Proof.
  destruct (existsb (Nat.eqb i) (seq a s)) eqn:E.
  - apply existsb_exists in E. destruct E as [x [Hx Hi]].
    apply Nat.eqb_eq in Hi. subst x. apply in_seq in Hx.
    symmetry. apply andb_true_iff. split; [apply Nat.leb_le | apply Nat.ltb_lt]; lia.
  - symmetry. apply not_true_is_false. intros H.
    apply andb_true_iff in H. destruct H as [H1 H2].
    apply Nat.leb_le in H1. apply Nat.ltb_lt in H2.
    assert (Hex : existsb (Nat.eqb i) (seq a s) = true).
    { apply existsb_exists. exists i. split; [apply in_seq; lia | apply Nat.eqb_refl]. }
    congruence.
Qed.

Lemma firstn_seq (n a len : nat) :
  firstn n (seq a len) = seq a (Nat.min n len).
Proof.
  revert a len; induction n as [|n IH]; intros a [|len]; simpl; try reflexivity.
  now rewrite IH.
Qed.

Lemma slice_seq (a b m : nat) :
  a <= b -> b <= m -> slice a b (seq 0 m) = seq a (b - a).
Proof.
  intros Hab Hbm. unfold slice. rewrite skipn_seq, firstn_seq.
  f_equal. lia.
Qed.

(** The rows of [arange(m)] selected by the mask of the block
    [start .. start + size - 1], and by its negation. *)
Lemma block_mask_select (m start size : nat) :
  start + size <= m ->
  np.mask_select (KFold.test_mask m (seq start size)) (np.arange m)
  = seq start size.
Proof.
  intros H. unfold KFold.test_mask, np.arange. rewrite mask_select_map.
  replace m with (start + (size + (m - start - size))) by lia.
  rewrite !seq_app, !filter_app. simpl.
  rewrite (filter_none _ (seq 0 start)), (filter_all _ (seq start size)),
    (filter_none _ (seq (start + size) _)); [now rewrite app_nil_r | | |];
    intros x Hx; apply in_seq in Hx; rewrite existsb_eqb_seq.
  - apply andb_false_iff. right. apply Nat.ltb_ge. lia.
  - apply andb_true_iff. split; [apply Nat.leb_le | apply Nat.ltb_lt]; lia.
  - apply andb_false_iff. left. apply Nat.leb_gt. lia.
Qed.

Lemma block_mask_complement (m start size : nat) :
  start + size <= m ->
  np.mask_select (map negb (KFold.test_mask m (seq start size))) (np.arange m)
  = seq 0 start ++ seq (start + size) (m - (start + size)).
Proof.
  intros H. unfold KFold.test_mask, np.arange. rewrite map_map, mask_select_map.
  replace m with (start + (size + (m - start - size))) at 1 by lia.
  rewrite !seq_app, !filter_app. simpl.
  rewrite (filter_all _ (seq 0 start)), (filter_none _ (seq start size)),
    (filter_all _ (seq (start + size) _));
    [simpl; do 2 f_equal; lia | | |];
    intros x Hx; apply in_seq in Hx; rewrite existsb_eqb_seq;
    destruct (Nat.leb_spec start x), (Nat.ltb_spec x (start + size));
    simpl; try reflexivity; lia.
Qed.

(* ================================================================= *)
(** ** The two cross-validation cuts *)

Lemma block_sizes_3 (m : nat) :
  block_size 3 m 0 + block_size 3 m 1 + block_size 3 m 2 = m
  /\ block_start 3 m 0 = 0
  /\ block_start 3 m 1 = block_size 3 m 0
  /\ block_start 3 m 2 = block_size 3 m 0 + block_size 3 m 1
  /\ block_size 3 m 2 <= block_size 3 m 1 <= block_size 3 m 0
  /\ block_size 3 m 0 <= block_size 3 m 2 + 1
  /\ (3 <= m -> 1 <= block_size 3 m 2).
Proof.
  unfold block_size, block_start.
  pose proof (Nat.div_mod_eq m 3) as Hm.
  pose proof (Nat.mod_upper_bound m 3 ltac:(lia)) as Hr.
  revert Hm Hr. generalize (m / 3) (m mod 3). intros q r Hm Hr.
  destruct r as [|[|[|r]]]; [| | |lia]; cbn [Nat.ltb Nat.leb Nat.min]; lia.
Qed.

Lemma KFold_split_3 {A} (X : list A) :
  3 <= length X ->
  let m := length X in
  KFold.split 3 X
  = inr [around_block m (block_start 3 m 0) (block_size 3 m 0);
         around_block m (block_start 3 m 1) (block_size 3 m 1);
         around_block m (block_start 3 m 2) (block_size 3 m 2)].
Proof.
  intros Hm m. unfold KFold.split. fold m.
  destruct (Nat.ltb_spec m 3) as [Hlt|_]; [lia|].
  unfold ret. f_equal.
  destruct (block_sizes_3 m) as (Hsum & H0 & H1 & H2 & _).
  rewrite H0, H1, H2.
  change (KFold.fold_sizes 3 m)
    with [block_size 3 m 0; block_size 3 m 1; block_size 3 m 2].
  revert Hsum.
  generalize (block_size 3 m 0) (block_size 3 m 1) (block_size 3 m 2).
  intros c0 c1 c2 Hsum.
  cbn [KFold.iter_test_indices map]. unfold np.arange at 1 3 5.
  rewrite !slice_seq by lia.
  replace (0 + c0 - 0) with c0 by lia.
  replace (0 + c0 + c1 - (0 + c0)) with c1 by lia.
  replace (0 + c0 + c1 + c2 - (0 + c0 + c1)) with c2 by lia.
  rewrite !block_mask_select, !block_mask_complement by lia.
  reflexivity.
Qed.

Lemma section_sizes_2 (n : nat) :
  np.section_sizes n 2 = [block_size 2 n 0; block_size 2 n 1]
  /\ block_size 2 n 0 + block_size 2 n 1 = n
  /\ block_size 2 n 0 = (n + 1) / 2
  /\ block_size 2 n 1 = n / 2.
Proof.
  unfold np.section_sizes, block_size.
  assert (Hh : (n + 1) / 2 = n / 2 + n mod 2).
  { pose proof (Nat.div_mod_eq n 2). pose proof (Nat.mod_upper_bound n 2 ltac:(lia)).
    symmetry. apply Nat.div_unique with (r := 1 - n mod 2); lia. }
  rewrite Hh.
  pose proof (Nat.div_mod_eq n 2) as Hn.
  pose proof (Nat.mod_upper_bound n 2 ltac:(lia)) as Hr.
  revert Hn Hr. generalize (n / 2) (n mod 2). intros q r Hn Hr.
  destruct r as [|[|r]]; [| |lia]; cbn [Nat.ltb Nat.leb Nat.sub repeat app];
    repeat split; try lia; repeat f_equal; lia.
Qed.

Lemma section_sizes_3 (n : nat) :
  np.section_sizes n 3 = [block_size 3 n 0; block_size 3 n 1; block_size 3 n 2].
Proof.
  unfold np.section_sizes, block_size.
  pose proof (Nat.mod_upper_bound n 3 ltac:(lia)) as Hr.
  revert Hr. generalize (n / 3) (n mod 3). intros q r Hr.
  destruct r as [|[|[|r]]]; [| | |lia]; cbn [Nat.ltb Nat.leb Nat.sub repeat app];
    repeat f_equal; lia.
Qed.

(** [np.array_split(l, 2)] cuts [l] after its first [(len + 1) // 2]
    elements. *)
Lemma array_split_2 {A} (l : list A) :
  np.array_split l 2
  = [firstn ((length l + 1) / 2) l; skipn ((length l + 1) / 2) l].
Proof.
  unfold np.array_split, np.div_points.
  destruct (section_sizes_2 (length l)) as (-> & Hsum & <- & _).
  revert Hsum. generalize (block_size 2 (length l) 0) (block_size 2 (length l) 1).
  intros h h' Hsum.
  cbn [np.div_points_from seq map nth]. unfold slice.
  rewrite !Nat.add_0_l, Nat.sub_0_r. cbn [skipn].
  replace (h + h' - h) with h' by lia.
  f_equal. f_equal. apply firstn_all2. rewrite length_skipn. lia.
Qed.

(** The three outer folds are consecutive ranges of trial numbers. *)
Lemma outer_folds_ranges (n : nat) :
  SingleRatTrialSplitDataset.outer_folds n
  = [seq (block_start 3 n 0) (block_size 3 n 0);
     seq (block_start 3 n 1) (block_size 3 n 1);
     seq (block_start 3 n 2) (block_size 3 n 2)].
Proof.
  unfold SingleRatTrialSplitDataset.outer_folds, np.array_split, np.div_points, np.arange.
  rewrite length_seq, section_sizes_3.
  destruct (block_sizes_3 n) as (Hsum & -> & -> & -> & _).
  revert Hsum. generalize (block_size 3 n 0) (block_size 3 n 1) (block_size 3 n 2).
  intros c0 c1 c2 Hsum.
  cbn [np.div_points_from seq map nth].
  rewrite !slice_seq by lia.
  repeat f_equal; lia.
Qed.

Lemma block_in_range (m i : nat) :
  i < 3 -> block_start 3 m i + block_size 3 m i <= m.
Proof.
  intros Hi. destruct (block_sizes_3 m) as (Hsum & H0 & H1 & H2 & _).
  destruct i as [|[|[|i]]]; lia.
Qed.

Lemma getitem_3 {A} (a b c : A) (k : Z) :
  (0 <= k < 3)%Z -> getitem [a; b; c] k = inr (nth (Z.to_nat k) [a; b; c] a).
Proof.
  intros Hk.
  assert (Hc : k = 0%Z \/ k = 1%Z \/ k = 2%Z) by lia.
  destruct Hc as [-> | [-> | ->]]; reflexivity.
Qed.

(** The pair that [list(inner_folds.split(out_fold))[split_no]] selects. *)
Lemma selected_pair {A} (X : list A) (k : Z) :
  3 <= length X -> (0 <= k < 3)%Z ->
  (folds <- KFold.split 3 X ;; getitem folds k)%py
  = inr (train_positions k (length X), remainder_positions k (length X)).
Proof.
  intros Hm Hk. rewrite (KFold_split_3 X Hm). cbn [bind].
  rewrite getitem_3 by exact Hk. unfold train_positions, remainder_positions.
  assert (Hc : k = 0%Z \/ k = 1%Z \/ k = 2%Z) by lia.
  destruct Hc as [-> | [-> | ->]]; reflexivity.
Qed.

Lemma train_positions_bound (k : Z) (m p : nat) :
  (0 <= k < 3)%Z -> In p (train_positions k m) -> p < m.
Proof.
  intros Hk. unfold train_positions, around_block. cbn [fst].
  pose proof (block_in_range m (i := Z.to_nat k) ltac:(lia)) as Hb.
  rewrite in_app_iff, !in_seq. lia.
Qed.

Lemma remainder_positions_bound (k : Z) (m p : nat) :
  (0 <= k < 3)%Z -> In p (remainder_positions k m) -> p < m.
Proof.
  intros Hk. unfold remainder_positions, around_block. cbn [snd].
  pose proof (block_in_range m (i := Z.to_nat k) ltac:(lia)) as Hb.
  rewrite in_seq. lia.
Qed.

Lemma positions_permutation (k : Z) (m h : nat) :
  (0 <= k < 3)%Z ->
  Permutation (train_positions k m
                 ++ skipn h (remainder_positions k m)
                 ++ firstn h (remainder_positions k m))
              (seq 0 m).
Proof.
  intros Hk. unfold train_positions, remainder_positions, around_block.
  cbn [fst snd].
  pose proof (block_in_range m (i := Z.to_nat k) ltac:(lia)) as Hb.
  revert Hb. generalize (block_start 3 m (Z.to_nat k)) (block_size 3 m (Z.to_nat k)).
  intros st sz Hb.
  replace (seq 0 m) with (seq 0 st ++ seq st sz ++ seq (st + sz) (m - (st + sz))).
  2:{ replace m with (st + (sz + (m - (st + sz)))) at 2 by lia.
      now rewrite !seq_app. }
  rewrite <- app_assoc. apply Permutation_app_head.
  rewrite <- (firstn_skipn h (seq st sz)) at 3.
  etransitivity; [apply Permutation_app_comm|].
  apply Permutation_app_tail. apply Permutation_app_comm.
Qed.

Import SingleRatTrialSplitDataset.

(** One iteration of the loop, once the pair of fold [k'] is selected. *)
Lemma loop_body_selected (k k' : Z) (n : nat) (l : locals) (out_fold : list nat) :
  (folds <- KFold.split 3 out_fold ;; getitem folds k)%py
  = inr (train_positions k' (length out_fold),
         remainder_positions k' (length out_fold)) ->
  (0 <= k' < 3)%Z ->
  loop_body k n l out_fold = inr (add_fold k' l out_fold).
Proof.
  intros Hsel Hk. unfold loop_body, add_fold.
  destruct (KFold.split 3 out_fold) as [e|folds]; [discriminate Hsel|].
  cbn [bind] in Hsel |- *. rewrite Hsel. cbn [bind].
  rewrite array_split_2.
  set (m := length out_fold).
  set (h := (length (remainder_positions k' m) + 1) / 2).
  rewrite (take_ok out_fold 0 (train_positions k' m))
    by (intros p Hp; exact (@train_positions_bound k' m p Hk Hp)).
  rewrite (take_ok out_fold 0 (skipn h (remainder_positions k' m))).
  2:{ intros p Hp. apply (@remainder_positions_bound k' m p Hk).
      rewrite <- (firstn_skipn h (remainder_positions k' m)).
      apply in_or_app. now right. }
  rewrite (take_ok out_fold 0 (firstn h (remainder_positions k' m))).
  2:{ intros p Hp. apply (@remainder_positions_bound k' m p Hk).
      rewrite <- (firstn_skipn h (remainder_positions k' m)).
      apply in_or_app. now left. }
  reflexivity.
Qed.

(** One iteration of the loop, for an outer fold of at least three trials. *)
Lemma loop_body_spec (k : Z) (n : nat) (l : locals) (out_fold : list nat) :
  3 <= length out_fold -> (0 <= k < 3)%Z ->
  loop_body k n l out_fold = inr (add_fold k l out_fold).
Proof.
  intros Hm Hk. apply loop_body_selected; [|exact Hk].
  apply selected_pair; assumption.
Qed.

(** The trials one iteration adds are the trials of the outer fold, each
    once. *)
Lemma fold_parts_permutation (k : Z) (out_fold : list nat) (h : nat) :
  (0 <= k < 3)%Z ->
  let m := length out_fold in
  Permutation (trials_at out_fold (train_positions k m)
                 ++ trials_at out_fold (skipn h (remainder_positions k m))
                 ++ trials_at out_fold (firstn h (remainder_positions k m)))
              out_fold.
Proof.
  intros Hk m. unfold trials_at. rewrite <- !map_app.
  apply Permutation_trans with (map (fun p => nth p out_fold 0) (seq 0 m)).
  - apply Permutation_map. apply positions_permutation. exact Hk.
  - unfold m. rewrite map_nth_seq. apply Permutation_refl.
Qed.

Lemma for_each_spec (k : Z) (n : nat) (folds : list (list nat)) (l : locals) :
  Forall (fun f => 3 <= length f) folds -> (0 <= k < 3)%Z ->
  for_each (loop_body k n) folds l = inr (fold_left (add_fold k) folds l).
Proof.
  intros Hf Hk. revert l. induction Hf as [|f folds Hlen _ IH]; intros l.
  - reflexivity.
  - cbn [for_each fold_left]. rewrite loop_body_spec by assumption.
    cbn [bind]. apply IH.
Qed.

Lemma add_fold_permutation (k : Z) (l : locals) (out_fold : list nat) :
  (0 <= k < 3)%Z ->
  Permutation (all_assigned (add_fold k l out_fold)) (all_assigned l ++ out_fold).
Proof.
  intros Hk. unfold all_assigned, add_fold. cbn [train_trials valid_trials test_trials].
  set (m := length out_fold).
  set (h := (length (remainder_positions k m) + 1) / 2).
  rewrite <- (fold_parts_permutation out_fold h Hk) at 4. fold m.
  generalize (trials_at out_fold (train_positions k m))
             (trials_at out_fold (skipn h (remainder_positions k m)))
             (trials_at out_fold (firstn h (remainder_positions k m))).
  generalize (train_trials l) (valid_trials l) (test_trials l).
  intros a b c x y z.
  rewrite <- !app_assoc. apply Permutation_app_head.
  etransitivity; [apply Permutation_app_swap_app|]. apply Permutation_app_head.
  etransitivity; [apply Permutation_app_head; apply Permutation_app_swap_app|].
  apply Permutation_app_swap_app.
Qed.

Lemma fold_left_add_fold_permutation (k : Z) (folds : list (list nat)) (l : locals) :
  (0 <= k < 3)%Z ->
  Permutation (all_assigned (fold_left (add_fold k) folds l))
              (all_assigned l ++ concat folds).
Proof.
  intros Hk. revert l. induction folds as [|f folds IH]; intros l.
  - cbn. now rewrite app_nil_r.
  - cbn [fold_left concat]. rewrite IH, add_fold_permutation by exact Hk.
    now rewrite app_assoc.
Qed.

Lemma NoDup_app_disjoint {A} (l1 l2 : list A) (a : A) :
  NoDup (l1 ++ l2) -> In a l1 -> ~ In a l2.
Proof.
  induction l1 as [|x l1 IH]; simpl; intros Hn Hin; [contradiction|].
  inversion Hn as [|? ? Hx Hn']; subst.
  destruct Hin as [-> | Hin]; [|now apply IH].
  intros H2. apply Hx. apply in_or_app. now right.
Qed.

Lemma outer_folds_long (n : nat) :
  9 <= n -> Forall (fun f => 3 <= length f) (outer_folds n).
Proof.
  intros Hn. rewrite outer_folds_ranges.
  assert (Hb : forall i, 3 <= block_size 3 n i).
  { intros i. unfold block_size.
    pose proof (Nat.div_mod_eq n 3). pose proof (Nat.mod_upper_bound n 3 ltac:(lia)).
    lia. }
  repeat constructor; rewrite length_seq; apply Hb.
Qed.

Lemma concat_outer_folds (n : nat) : concat (outer_folds n) = seq 0 n.
Proof.
  rewrite outer_folds_ranges.
  destruct (block_sizes_3 n) as (Hsum & -> & -> & -> & _).
  cbn [concat]. rewrite app_nil_r, <- !seq_app. f_equal. lia.
Qed.

(** With fewer than nine trials an outer fold has fewer than three, which
    the inner cross-validation refuses. *)
Lemma fold_trials_too_few (k : Z) (n : nat) :
  n < 9 -> (0 <= k < 3)%Z -> exists msg, fold_trials k n = inl (ValueError msg).
Proof.
  intros Hn Hk.
  assert (Hc : k = 0%Z \/ k = 1%Z \/ k = 2%Z) by lia.
  do 9 (destruct n as [|n]; [destruct Hc as [-> | [-> | ->]]; eexists; vm_compute; reflexivity|]).
  lia.
Qed.

Section Partition.

Context {Label F : Type}.
Variable direction : Label -> F.
Variable fne : F -> F -> bool.

(** C3 (amended). For every recording with at least nine trials and every
    fold index of 0, 1, 2, the loop ends with train, valid and test lists
    that are pairwise disjoint and hold every trial number of
    [0 .. trial_count - 1] exactly once; the three outer folds are
    consecutive ranges of trial numbers whose sizes differ by at most one,
    the larger ones first. *)
Theorem fold_trials_partition (index : list Label) (k : Z) :
  9 <= total_trials_num direction fne index -> (0 <= k < 3)%Z ->
  let n := total_trials_num direction fne index in
  (exists l,
      fold_trials k n = inr l
      /\ Permutation (train_trials l ++ valid_trials l ++ test_trials l) (seq 0 n)
      /\ NoDup (train_trials l ++ valid_trials l ++ test_trials l)
      /\ (forall i, In i (train_trials l) ->
                    ~ In i (valid_trials l) /\ ~ In i (test_trials l))
      /\ (forall i, In i (valid_trials l) -> ~ In i (test_trials l))
      /\ (forall i, i < n <->
                    In i (train_trials l) \/ In i (valid_trials l)
                    \/ In i (test_trials l)))
  /\ (exists f0 f1 f2,
         outer_folds n = [f0; f1; f2]
         /\ f0 ++ f1 ++ f2 = seq 0 n
         /\ length f2 <= length f1 <= length f0
         /\ length f0 <= length f2 + 1).
Proof.
  intros Hn Hk n. split.
  - exists (fold_left (add_fold k) (outer_folds n) locals0).
    assert (Hp : Permutation
                   (all_assigned (fold_left (add_fold k) (outer_folds n) locals0))
                   (seq 0 n)).
    { rewrite fold_left_add_fold_permutation by exact Hk.
      cbn. apply Permutation_refl' , concat_outer_folds. }
    unfold all_assigned in Hp.
    split; [apply for_each_spec; [apply outer_folds_long; exact Hn | exact Hk]|].
    revert Hp. generalize (fold_left (add_fold k) (outer_folds n) locals0).
    generalize n. clear. intros n l Hp.
    assert (Hnd : NoDup (train_trials l ++ valid_trials l ++ test_trials l)).
    { apply (Permutation_NoDup (Permutation_sym Hp)), seq_NoDup. }
    split; [exact Hp|]. split; [exact Hnd|].
    split; [|split].
    + intros i Hi. split; intros Hi'.
      * apply (@NoDup_app_disjoint _ _ _ i Hnd Hi). apply in_or_app. now left.
      * apply (@NoDup_app_disjoint _ _ _ i Hnd Hi). apply in_or_app. now right.
    + intros i Hi. apply NoDup_app_remove_l in Hnd.
      exact (@NoDup_app_disjoint _ _ _ i Hnd Hi).
    + intros i. rewrite <- !in_app_iff.
      split; intros Hi.
      * apply (Permutation_in _ (Permutation_sym Hp)). apply in_seq. lia.
      * apply (Permutation_in _ Hp) in Hi. apply in_seq in Hi. lia.
  - rewrite outer_folds_ranges.
    destruct (block_sizes_3 n) as (Hsum & H0 & H1 & H2 & Hle & Hge & _).
    do 3 eexists. split; [reflexivity|].
    rewrite !length_seq. split; [|split; assumption].
    rewrite H0, H1, H2, <- !seq_app. f_equal. lia.
Qed.

End Partition.

Lemma alternating_trials_18 :
  total_trials_num snd zne (alternating_index 18) = 9.
Proof. reflexivity. Qed.

Lemma fold_trials_partition_witness :
  9 <= total_trials_num snd zne (alternating_index 18) /\ (0 <= 1 < 3)%Z
  /\ exists l, fold_trials 1 (total_trials_num snd zne (alternating_index 18)) = inr l
               /\ NoDup (train_trials l ++ valid_trials l ++ test_trials l).
Proof.
  assert (H9 : 9 <= total_trials_num snd zne (alternating_index 18))
    by (rewrite alternating_trials_18; lia).
  assert (Hk : (0 <= 1 < 3)%Z) by lia.
  split; [exact H9|]. split; [exact Hk|].
  destruct (fold_trials_partition snd zne (alternating_index 18) H9 Hk)
    as [[l (Hl & _ & Hnd & _)] _].
  exists l. split; assumption.
Defined.

(** C3, as stated, fails on the recording of the specification's scenario:
    it is not empty, it has two trials, and the loop raises on its first
    outer fold, which has one trial, so that no lists are accumulated. *)
Lemma fold_trials_scenario_counterexample :
  scenario_direction <> []
  /\ total_trials_num (fun d => d) zne scenario_direction = 2
  /\ fold_trials 0 2
     = inl (ValueError "Cannot have number of splits n_splits=3 greater than the number of samples: n_samples=1.")
  /\ ~ (exists l,
           fold_trials 0 (total_trials_num (fun d => d) zne scenario_direction) = inr l
           /\ Permutation (train_trials l ++ valid_trials l ++ test_trials l)
                          (seq 0 (total_trials_num (fun d => d) zne scenario_direction))).
Proof.
  split; [discriminate|]. split; [reflexivity|]. split; [reflexivity|].
  intros [l [Hl _]]. vm_compute in Hl. discriminate Hl.
Qed.

(* ================================================================= *)
(** ** Boundaries of the scenario of the specification *)

Lemma trial_change_idx_boundaries_witness :
  scenario_direction <> []
  /\ strictly_increasing (trial_change_idx (fun d => d) zne scenario_direction)
  /\ hd_error (trial_change_idx (fun d => d) zne scenario_direction) = Some 0%Z
  /\ last (trial_change_idx (fun d => d) zne scenario_direction) 0%Z
     = Z.of_nat (length scenario_direction)
  /\ length (trial_change_idx (fun d => d) zne scenario_direction)
     = total_trials_num (fun d => d) zne scenario_direction + 1.
Proof.
  split; [discriminate|].
  destruct (trial_change_idx_boundaries (fun d => d) zne (index := scenario_direction))
    as (H1 & H2 & H3 & H4 & _); [discriminate|].
  repeat split; assumption.
Defined.

(** C8. On the direction column [+1,+1,-1,-1,+1,+1,-1] the change points
    are 1, 3, 5; every second one from offset 1 is 3; the boundaries are
    0, 3, 7, which makes two trials, of 3 and of 4 rows. *)
Theorem scenario_boundaries :
  direction_change_idx (fun d => d) zne scenario_direction = [1; 3; 5]%Z
  /\ slice_1_2 (direction_change_idx (fun d => d) zne scenario_direction) = [3]%Z
  /\ trial_change_idx (fun d => d) zne scenario_direction = [0; 3; 7]%Z
  /\ total_trials_num (fun d => d) zne scenario_direction = 2
  /\ mapM (trial_rows (trial_change_idx (fun d => d) zne scenario_direction)
                      scenario_direction) [0; 1]
     = inr [[1; 1; -1]; [-1; 1; 1; -1]]%Z
  /\ map (@length Z) [[1; 1; -1]; [-1; 1; 1; -1]]%Z = [3; 4].
Proof.
  repeat split; reflexivity.
Qed.

(* ================================================================= *)
(** ** The pair selected inside an outer fold *)

Lemma getitem_3_inv {A} (a b c x : A) (k : Z) :
  getitem [a; b; c] k = inr x ->
  exists i, (0 <= i < 3)%Z /\ x = nth (Z.to_nat i) [a; b; c] a.
Proof.
  unfold getitem. change (Z.of_nat (length [a; b; c])) with 3%Z.
  set (pos := if (k <? 0)%Z then (k + 3)%Z else k). clearbody pos.
  destruct ((0 <=? pos)%Z && (pos <? 3)%Z)%bool eqn:E; [|discriminate].
  apply andb_true_iff in E. destruct E as [E1 E2].
  apply Z.leb_le in E1. apply Z.ltb_lt in E2.
  intros H. exists pos. split; [lia|].
  assert (Hc : pos = 0%Z \/ pos = 1%Z \/ pos = 2%Z) by lia.
  destruct Hc as [-> | [-> | ->]]; cbn in H |- *; now inversion H.
Qed.

(** Whatever [split_no] is, a pair that was selected is the pair of one of
    the three folds. *)
Lemma selected_pair_inv {A} (X : list A) (k : Z) (a b : list nat) :
  (folds <- KFold.split 3 X ;; getitem folds k)%py = inr (a, b) ->
  3 <= length X
  /\ exists k', (0 <= k' < 3)%Z
                /\ a = train_positions k' (length X)
                /\ b = remainder_positions k' (length X).
Proof.
  intros Hsel.
  assert (Hm : 3 <= length X).
  { destruct (Nat.ltb_spec (length X) 3) as [Hlt|Hge]; [|exact Hge].
    unfold KFold.split in Hsel. apply Nat.ltb_lt in Hlt. rewrite Hlt in Hsel.
    discriminate Hsel. }
  split; [exact Hm|].
  rewrite (KFold_split_3 X Hm) in Hsel. cbn [bind] in Hsel.
  apply getitem_3_inv in Hsel. destruct Hsel as [i [Hi Hx]].
  exists i. split; [exact Hi|].
  unfold train_positions, remainder_positions.
  assert (Hc : i = 0%Z \/ i = 1%Z \/ i = 2%Z) by lia.
  destruct Hc as [-> | [-> | ->]]; cbn [Z.to_nat Pos.to_nat Pos.iter_op Nat.add nth] in Hx |- *;
    now inversion Hx.
Qed.

(** C5 (amended). For every outer fold of at least three trials and every
    fold index of 0, 1, 2, the selected pair is a train part and a remainder
    part of positions in the fold; the remainder part is block [fold_index]
    of the unshuffled 3-fold cut, a third of the fold (its size is
    [m // 3], one more when [fold_index < m % 3]), and the train part is the
    other two thirds. *)
Theorem selected_pair_thirds (out_fold : list nat) (k : Z) :
  3 <= length out_fold -> (0 <= k < 3)%Z ->
  let m := length out_fold in
  exists train_part remainder_part,
    (folds <- KFold.split 3 out_fold ;; getitem folds k)%py
    = inr (train_part, remainder_part)
    /\ length remainder_part = m / 3 + (if Z.to_nat k <? m mod 3 then 1 else 0)
    /\ length train_part = m - length remainder_part
    /\ remainder_part = seq (block_start 3 m (Z.to_nat k)) (length remainder_part)
    /\ Permutation (train_part ++ remainder_part) (seq 0 m)
    /\ 3 * length remainder_part <= m + 2
    /\ m <= 3 * length remainder_part + 2.
Proof.
  intros Hm Hk m.
  exists (train_positions k m), (remainder_positions k m).
  split; [apply selected_pair; assumption|].
  pose proof (@block_in_range m (Z.to_nat k) ltac:(lia)) as Hb.
  unfold train_positions, remainder_positions, around_block. cbn [fst snd].
  rewrite length_app, !length_seq.
  fold (block_size 3 m (Z.to_nat k)).
  split; [reflexivity|]. split; [lia|]. split; [reflexivity|]. split.
  - pose proof (@positions_permutation k m 0 Hk) as Hp.
    unfold train_positions, remainder_positions, around_block in Hp.
    cbn [fst snd firstn skipn] in Hp. rewrite app_nil_r in Hp. exact Hp.
  - unfold block_size.
    pose proof (Nat.div_mod_eq m 3). pose proof (Nat.mod_upper_bound m 3 ltac:(lia)).
    destruct (Nat.ltb_spec (Z.to_nat k) (m mod 3)); lia.
Qed.

Lemma selected_pair_thirds_witness :
  3 <= length [3; 4; 5; 6] /\ (0 <= 0 < 3)%Z
  /\ exists train_part remainder_part,
      (folds <- KFold.split 3 [3; 4; 5; 6] ;; getitem folds 0)%py
      = inr (train_part, remainder_part)
      /\ length remainder_part = 2 /\ length train_part = 2.
Proof.
  assert (Hm : 3 <= length [3; 4; 5; 6]) by (simpl; lia).
  assert (Hk : (0 <= 0 < 3)%Z) by lia.
  split; [exact Hm|]. split; [exact Hk|].
  destruct (selected_pair_thirds [3; 4; 5; 6] Hm Hk)
    as (tp & rp & Hsel & Hr & Ht & _).
  exists tp, rp. split; [exact Hsel|]. split; [exact Hr|].
  rewrite Ht, Hr. reflexivity.
Defined.

(** C5, as stated, fails on an outer fold of three trials: the remainder
    part of fold index 0 is the single position 0, one third of the fold,
    and the train part has the other two.  On an outer fold of two trials no
    pair is selected at all. *)
Lemma remainder_two_thirds_counterexample :
  (folds <- KFold.split 3 [0; 1; 2] ;; getitem folds 0)%py = inr ([1; 2], [0])
  /\ (folds <- KFold.split 3 [0; 1] ;; getitem folds 0)%py
     = inl (ValueError "Cannot have number of splits n_splits=3 greater than the number of samples: n_samples=2.")
  /\ ~ (forall (out_fold : list nat) (k : Z) (train_part remainder_part : list nat),
           (0 <= k < 3)%Z ->
           (folds <- KFold.split 3 out_fold ;; getitem folds k)%py
           = inr (train_part, remainder_part) ->
           3 * length remainder_part = 2 * length out_fold).
Proof.
  split; [reflexivity|]. split; [reflexivity|].
  intros H.
  specialize (H [0; 1; 2] 0%Z [1; 2] [0] ltac:(lia) eq_refl).
  simpl in H. lia.
Qed.

(* ================================================================= *)
(** ** Bisection of the remainder part *)

(** C6. Once a pair is selected for an outer fold, its remainder part is
    cut in two in order: the first piece, which has the extra element when
    the remainder part has an odd length, gives the test trials and the
    second piece the valid trials: the iteration appends to the test list
    the trials of the outer fold at the positions of the first piece, and to
    the valid list those at the positions of the second piece, in order. *)
Theorem remainder_bisected (k : Z) (n : nat) (l : locals) (out_fold : list nat)
        (train_trial val_test_trial : list nat) :
  (folds <- KFold.split 3 out_fold ;; getitem folds k)%py
  = inr (train_trial, val_test_trial) ->
  exists test_trial valid_trial l',
    np.array_split val_test_trial 2 = [test_trial; valid_trial]
    /\ val_test_trial = test_trial ++ valid_trial
    /\ length valid_trial = length val_test_trial / 2
    /\ length test_trial = length valid_trial + length val_test_trial mod 2
    /\ (forall p, In p val_test_trial -> p < length out_fold)
    /\ np.take out_fold test_trial = inr (trials_at out_fold test_trial)
    /\ np.take out_fold valid_trial = inr (trials_at out_fold valid_trial)
    /\ loop_body k n l out_fold = inr l'
    /\ test_trials l' = test_trials l ++ trials_at out_fold test_trial
    /\ valid_trials l' = valid_trials l ++ trials_at out_fold valid_trial
    /\ train_trials l' = train_trials l ++ trials_at out_fold train_trial
    /\ length (test_trials l') = length (test_trials l) + length test_trial
    /\ length (valid_trials l') = length (valid_trials l) + length valid_trial
    /\ (forall x, In x (trials_at out_fold test_trial) -> In x out_fold)
    /\ (forall x, In x (trials_at out_fold valid_trial) -> In x out_fold).
Proof.
  intros Hsel.
  destruct (selected_pair_inv out_fold k Hsel) as (Hm & k' & Hk' & -> & ->).
  set (m := length out_fold) in *.
  set (r := remainder_positions k' m).
  set (h := (length r + 1) / 2).
  assert (Hh : h <= length r /\ length r - h = length r / 2
               /\ h = length r / 2 + length r mod 2).
  { unfold h. destruct (section_sizes_2 (length r)) as (_ & Hs & <- & <-).
    unfold block_size in *. cbn [Nat.ltb Nat.leb] in *.
    pose proof (Nat.mod_upper_bound (length r) 2 ltac:(lia)).
    destruct (length r mod 2) as [|[|?]]; cbn [Nat.leb] in *; lia. }
  assert (Hr : forall p, In p r -> p < m)
    by (intros p; apply remainder_positions_bound; exact Hk').
  assert (Hfirst : forall p, In p (firstn h r) -> p < m).
  { intros p Hp. apply Hr. rewrite <- (firstn_skipn h r). apply in_or_app. now left. }
  assert (Hsecond : forall p, In p (skipn h r) -> p < m).
  { intros p Hp. apply Hr. rewrite <- (firstn_skipn h r). apply in_or_app. now right. }
  assert (Hin : forall ps, (forall p, In p ps -> p < m) ->
                           forall x, In x (trials_at out_fold ps) -> In x out_fold).
  { intros ps Hps x Hx. unfold trials_at in Hx. apply in_map_iff in Hx.
    destruct Hx as [p [<- Hp]]. apply nth_In. apply Hps, Hp. }
  exists (firstn h r), (skipn h r), (add_fold k' l out_fold).
  split; [apply array_split_2|].
  split; [symmetry; apply firstn_skipn|].
  split; [rewrite length_skipn; lia|].
  split; [rewrite length_firstn, length_skipn; lia|].
  split; [exact Hr|].
  split; [apply take_ok; exact Hfirst|].
  split; [apply take_ok; exact Hsecond|].
  split; [apply loop_body_selected; assumption|].
  unfold add_fold. cbn [test_trials valid_trials train_trials]. fold m. fold r. fold h.
  split; [reflexivity|]. split; [reflexivity|]. split; [reflexivity|].
  split; [rewrite length_app; unfold trials_at; now rewrite length_map|].
  split; [rewrite length_app; unfold trials_at; now rewrite length_map|].
  split; [apply Hin, Hfirst | apply Hin, Hsecond].
Qed.

Lemma remainder_bisected_witness :
  (folds <- KFold.split 3 [10; 11; 12; 13; 14; 15; 16; 17; 18] ;; getitem folds 1)%py
  = inr ([0; 1; 2; 6; 7; 8], [3; 4; 5])
  /\ exists l',
      loop_body 1 27 locals0 [10; 11; 12; 13; 14; 15; 16; 17; 18] = inr l'
      /\ test_trials l' = [13; 14]
      /\ valid_trials l' = [15]
      /\ train_trials l' = [10; 11; 12; 16; 17; 18].
Proof.
  split; [reflexivity|].
  destruct (@remainder_bisected 1 27 locals0 [10; 11; 12; 13; 14; 15; 16; 17; 18]
              [0; 1; 2; 6; 7; 8] [3; 4; 5] eq_refl)
    as (tt' & vt & l' & Hsplit & _ & _ & _ & _ & _ & _ & Hl & Hte & Hva & Htr & _).
  exists l'. split; [exact Hl|].
  injection Hsplit as <- <-.
  rewrite Hte, Hva, Htr. repeat split.
Defined.

(* ================================================================= *)
(** ** Discontinuity offsets *)

Lemma getitem_nth {A} (l : list A) (d : A) (i : nat) :
  i < length l -> getitem l (Z.of_nat i) = inr (nth i l d).
Proof.
  intros Hi. unfold getitem.
  destruct (Z.ltb_spec (Z.of_nat i) 0) as [Hneg|_]; [lia|].
  destruct (Z.leb_spec 0 (Z.of_nat i)) as [_|Hneg]; [|lia].
  destruct (Z.ltb_spec (Z.of_nat i) (Z.of_nat (length l))) as [_|Hge]; [|lia].
  cbn [andb]. rewrite Nat2Z.id, (nth_error_nth' l d Hi). reflexivity.
Qed.

Lemma trial_slice_ok (tci : list Z) (i : nat) :
  S i < length tci ->
  trial_slice tci i = inr (nth i tci 0%Z, nth (S i) tci 0%Z).
Proof.
  intros Hi. unfold trial_slice.
  rewrite (getitem_nth tci 0%Z) by lia. cbn [bind].
  replace (Z.of_nat i + 1)%Z with (Z.of_nat (S i)) by lia.
  rewrite (getitem_nth tci 0%Z) by lia. reflexivity.
Qed.

Lemma trial_rows_ok {A} (tci : list Z) (t : list A) (i : nat) :
  S i < length tci -> trial_rows tci t i = inr (rows_of tci t i).
Proof.
  intros Hi. unfold trial_rows, rows_of.
  rewrite (getitem_nth tci 0%Z) by lia. cbn [bind].
  replace (Z.of_nat i + 1)%Z with (Z.of_nat (S i)) by lia.
  rewrite (getitem_nth tci 0%Z) by lia. reflexivity.
Qed.

Lemma cumulated_len_ok (tci : list Z) (trials : list nat) :
  (forall i, In i trials -> S i < length tci) ->
  cumulated_len tci trials = inr (np.cumsum (map (segment_length tci) trials)).
Proof.
  intros H. unfold cumulated_len.
  rewrite (mapM_ok _ (segment_length tci)); [reflexivity|].
  intros i Hi. rewrite trial_slice_ok by (apply H; exact Hi). reflexivity.
Qed.

Lemma filter_map_S (f : nat -> bool) (l : list nat) :
  filter f (map S l) = map S (filter (fun p => f (S p)) l).
Proof.
  induction l as [|x l IH]; simpl; [reflexivity|].
  destruct (f (S x)); simpl; now rewrite IH.
Qed.

(** The masked cumulated lengths are the offsets after the gap positions. *)
Lemma masked_cumsum (g : nat -> Z) (ts : list nat) (acc : Z) :
  np.mask_select
    (np.map2 (fun a b => negb (a =? b)) (map (fun i => i + 1) (removelast ts)) (tl ts))
    (removelast (np.cumsum_from acc (map g ts)))
  = map (fun p => (acc + fold_right Z.add 0 (map g (firstn (S p) ts)))%Z)
        (gap_positions ts).
Proof.
  revert acc. induction ts as [|a [|b t] IH]; intros acc; [reflexivity..|].
  change (removelast (a :: b :: t)) with (a :: removelast (b :: t)).
  change (map g (a :: b :: t)) with (g a :: map g (b :: t)).
  cbn [np.cumsum_from].
  assert (Hrl : forall (z z' : Z) zs, removelast (z :: z' :: zs) = z :: removelast (z' :: zs))
    by reflexivity.
  cbn [map] in IH |- *. cbn [np.cumsum_from] in IH |- *. rewrite Hrl.
  cbn [tl np.map2 np.mask_select].
  specialize (IH (acc + g a)%Z). cbn [tl] in IH. rewrite IH. clear IH.
  unfold gap_positions.
  replace (length (a :: b :: t) - 1) with (S (length (b :: t) - 1)) by (simpl; lia).
  rewrite <- cons_seq, <- seq_shift. cbn [filter].
  rewrite filter_map_S.
  assert (Hm : map (fun p => (acc + fold_right Z.add 0 (map g (firstn (S p) (a :: b :: t))))%Z)
                   (map S (filter (fun p => negb (nth p (b :: t) 0 + 1 =? nth (S p) (b :: t) 0))
                                  (seq 0 (length (b :: t) - 1))))
               = map (fun p => (acc + g a + fold_right Z.add 0 (map g (firstn (S p) (b :: t))))%Z)
                     (filter (fun p => negb (nth p (b :: t) 0 + 1 =? nth (S p) (b :: t) 0))
                             (seq 0 (length (b :: t) - 1)))).
  { rewrite map_map. apply map_ext. intros p.
    change (firstn (S (S p)) (a :: b :: t)) with (a :: firstn (S p) (b :: t)).
    cbn [map fold_right]. lia. }
  change (nth 0 (a :: b :: t) 0) with a. change (nth 1 (a :: b :: t) 0) with b.
  destruct (negb (a + 1 =? b)).
  - rewrite map_cons. f_equal.
    + cbn [firstn map fold_right]. lia.
    + symmetry. exact Hm.
  - symmetry. exact Hm.
Qed.

Lemma discontinuities_ok (tci : list Z) (trials : list nat) :
  (forall i, In i trials -> S i < length tci) ->
  discontinuities tci trials
  = inr (map (offset_after tci trials) (gap_positions trials)).
Proof.
  intros H. unfold discontinuities. rewrite cumulated_len_ok by exact H.
  cbn [bind]. unfold ret, np.cumsum. f_equal.
  rewrite masked_cumsum. apply map_ext. intros p. unfold offset_after. lia.
Qed.

(** C7. The discontinuity offsets of a selected trial list are exactly the
    cumulated segment lengths at the positions where the next trial number
    is not the previous one plus 1, in order; a position where the two
    trials follow each other in the recording is not marked. *)
Theorem discontinuities_at_gaps (tci : list Z) (trials : list nat) :
  (forall i, In i trials -> S i < length tci) ->
  discontinuities tci trials
  = inr (map (offset_after tci trials) (gap_positions trials))
  /\ (forall p, In p (gap_positions trials) <->
                S p < length trials /\ nth p trials 0 + 1 <> nth (S p) trials 0).
Proof.
  intros H. split; [apply discontinuities_ok; exact H|].
  intros p. unfold gap_positions. rewrite filter_In, in_seq, negb_true_iff, Nat.eqb_neq.
  split; intros [H1 H2]; split; try assumption; lia.
Qed.

Lemma discontinuities_at_gaps_witness :
  (forall i, In i [1; 2; 4; 5; 7; 8] ->
             S i < length [0; 1; 3; 5; 7; 9; 11; 13; 15; 18]%Z)
  /\ discontinuities [0; 1; 3; 5; 7; 9; 11; 13; 15; 18]%Z [1; 2; 4; 5; 7; 8]
     = inr [4; 8]%Z.
Proof.
  assert (H : forall i, In i [1; 2; 4; 5; 7; 8] ->
                        S i < length [0; 1; 3; 5; 7; 9; 11; 13; 15; 18]%Z).
  { intros i Hi. simpl in Hi. simpl. lia. }
  split; [exact H|].
  exact (proj1 (@discontinuities_at_gaps
                  [0; 1; 3; 5; 7; 9; 11; 13; 15; 18]%Z [1; 2; 4; 5; 7; 8] H)).
Defined.

(* ================================================================= *)
(** ** The corrupted-label variant *)

Import SingleRatCorruptDataset.

Lemma setitem_moved (t : list nat) (j h d : nat) :
  j < length t -> Permutation (nth j t d :: setitem t j h) (h :: t).
Proof.
  revert j; induction t as [|u t IH]; intros j Hj; [simpl in Hj; lia|].
  destruct j as [|j]; cbn [nth setitem].
  - apply perm_swap.
  - etransitivity; [apply perm_swap|].
    etransitivity; [|apply perm_swap].
    apply perm_skip. apply IH. simpl in Hj. lia.
Qed.

Lemma setitem_twice (x : list nat) (i j d : nat) :
  i < length x -> j < length x ->
  Permutation (setitem (setitem x i (nth j x d)) j (nth i x d)) x.
Proof.
  revert i j; induction x as [|h t IH]; intros i j Hi Hj; [simpl in Hi; lia|].
  simpl in Hi, Hj.
  destruct i as [|i], j as [|j]; cbn [nth setitem].
  - apply Permutation_refl.
  - apply setitem_moved. lia.
  - apply setitem_moved. lia.
  - apply perm_skip. apply IH; lia.
Qed.

Lemma swap_permutation (x : list nat) (i j : nat) : Permutation (swap x i j) x.
Proof.
  unfold swap.
  destruct (nth_error x i) as [a|] eqn:Ei; [|apply Permutation_refl].
  destruct (nth_error x j) as [b|] eqn:Ej; [|apply Permutation_refl].
  assert (Hi : i < length x) by (apply nth_error_Some; congruence).
  assert (Hj : j < length x) by (apply nth_error_Some; congruence).
  rewrite <- (nth_error_nth x i 0 Ei), <- (nth_error_nth x j 0 Ej).
  apply setitem_twice; assumption.
Qed.

Section CorruptFacts.

Context {Row Label BitGen : Type}.
Variable PCG64 : Z -> BitGen.
Variable random_interval : BitGen -> nat -> nat * BitGen.

Lemma shuffle_loop_permutation (i : nat) (g : BitGen) (x : list nat) :
  Permutation (shuffle_loop random_interval i g x) x.
Proof.
  revert g x; induction i as [|i IH]; intros g x; cbn [shuffle_loop].
  - apply Permutation_refl.
  - destruct (random_interval g (S i)) as [j g'].
    etransitivity; [apply IH | apply swap_permutation].
Qed.

Lemma shuffle_permutation (g : BitGen) (x : list nat) :
  Permutation (shuffle random_interval g x) x.
Proof. apply shuffle_loop_permutation. Qed.

Lemma new_PCG64_accepts (seed : Z) :
  (0 <= seed)%Z -> new_PCG64 PCG64 seed = inr (PCG64 seed).
Proof.
  intros Hs. unfold new_PCG64.
  destruct (Z.ltb_spec seed 0) as [Hneg|_]; [lia | reflexivity].
Qed.

(** C10 (amended). For every non-negative seed, the corrupted-label
    variant keeps the neural tensor and the name, and its label tensor is a
    permutation of the rows of the original one, of the same length: the
    rows gathered along a permutation of the row numbers that is computed
    from the generator seeded with [seed] and from the number of rows, hence
    the same for the same seed. *)
Theorem corrupt_permutes_labels (name : string) (seed : Z)
        (spikes : list Row) (position : list Label) :
  (0 <= seed)%Z ->
  exists d sigma,
    init PCG64 random_interval name seed spikes position = inr d
    /\ SingleRatDataset.neural d = spikes
    /\ SingleRatDataset.name d = name
    /\ Permutation (SingleRatDataset.index d) position
    /\ length (SingleRatDataset.index d) = length position
    /\ sigma = shuffle random_interval (PCG64 seed) (np.arange (length position))
    /\ Permutation sigma (seq 0 (length position))
    /\ np.take position sigma = inr (SingleRatDataset.index d).
Proof.
  intros Hseed. unfold init. rewrite (new_PCG64_accepts Hseed). cbn [bind].
  cbn [SingleRatDataset.init SingleRatDataset.index
         SingleRatDataset.neural SingleRatDataset.name].
  set (sh := shuffle random_interval (PCG64 seed) (np.arange (length position))).
  assert (Hp : Permutation sh (seq 0 (length position)))
    by apply shuffle_permutation.
  destruct position as [|d rest] eqn:Epos.
  - pose proof Hp as Hnil.
    apply Permutation_sym, Permutation_nil in Hnil. rewrite Hnil in *. cbn.
    eexists. exists []. repeat split; [apply Permutation_refl | exact Hp].
  - rewrite <- Epos in *.
    assert (Ht : np.take position sh = inr (map (fun p => nth p position d) sh)).
    { apply take_ok. intros p Hin. apply (Permutation_in _ Hp) in Hin.
      apply in_seq in Hin. lia. }
    rewrite Ht. cbn [bind]. eexists. exists sh. split; [reflexivity|].
    cbn [SingleRatDataset.index SingleRatDataset.neural SingleRatDataset.name].
    assert (Hq : Permutation (map (fun p => nth p position d) sh) position).
    { apply Permutation_trans
        with (map (fun p => nth p position d) (seq 0 (length position))).
      - apply Permutation_map, Hp.
      - rewrite map_nth_seq. apply Permutation_refl. }
    repeat split; [exact Hq | apply (Permutation_length Hq) | exact Hp | exact Ht].
Qed.

(** A negative seed is refused, whatever the recording. *)
Lemma corrupt_negative_seed (name : string) (seed : Z)
      (spikes : list Row) (position : list Label) :
  (seed < 0)%Z ->
  init PCG64 random_interval name seed spikes position
  = inl (ValueError "expected non-negative integer").
Proof.
  intros Hs. unfold init, new_PCG64.
  destruct (Z.ltb_spec seed 0) as [_|Hge]; [reflexivity | lia].
Qed.

End CorruptFacts.

Lemma corrupt_permutes_labels_witness :
  (0 <= 42)%Z
  /\ exists d,
      init example_PCG64 example_interval "achilles" 42
           (alternating_neural 5) (alternating_index 5) = inr d
      /\ SingleRatDataset.neural d = alternating_neural 5
      /\ Permutation (SingleRatDataset.index d) (alternating_index 5).
Proof.
  assert (Hs : (0 <= 42)%Z) by lia.
  split; [exact Hs|].
  destruct (corrupt_permutes_labels example_PCG64 example_interval "achilles"
              (alternating_neural 5) (alternating_index 5) Hs)
    as (d & sigma & Hd & Hn & _ & Hp & _).
  exists d. repeat split; assumption.
Defined.

(** C10, as stated for every seed, fails for the seed -1: the generator
    cannot be built and the construction raises, so that there is no
    corrupted variant of the recording. *)
Lemma corrupt_negative_seed_counterexample :
  init example_PCG64 example_interval "achilles" (-1)
       (alternating_neural 5) (alternating_index 5)
  = inl (ValueError "expected non-negative integer")
  /\ ~ (exists d,
           init example_PCG64 example_interval "achilles" (-1)
                (alternating_neural 5) (alternating_index 5) = inr d
           /\ Permutation (SingleRatDataset.index d) (alternating_index 5)).
Proof.
  split; [reflexivity|].
  intros [d [Hd _]]. discriminate Hd.
Qed.

(* ================================================================= *)
(** ** The neighbour sweep of [decode] *)


(* ================================================================= *)
(** ** The split as a whole *)

Module TS := SingleRatTrialSplitDataset.

Lemma trial_change_idx_length {Label F} (direction : Label -> F)
      (fne : F -> F -> bool) (index : list Label) :
  length (trial_change_idx direction fne index)
  = S (total_trials_num direction fne index).
Proof.
  unfold total_trials_num, trial_change_idx. simpl. rewrite length_app. simpl. lia.
Qed.

Section SplitFacts.

Context {Row Label F : Type}.
Variable direction : Label -> F.
Variable fne : F -> F -> bool.

(** C2 (what the code does). [_split] raises for every split name, the
    five documented ones included, and leaves the stored object as it
    was. *)
Theorem split_always_raises (split : string) (s : TS.t Row Label) :
  snd (TS._split direction fne split s) = s
  /\ exists e, fst (TS._split direction fne split s) = inl e.
Proof.
  unfold TS._split, TS.mbind, TS.gets, TS.lift.
  destruct (TS.fold_trials (TS.split_no s)
              (length (trial_change_idx direction fne (TS.index s)) - 1))
    as [e|l]; cbn.
  - split; [reflexivity | now exists e].
  - split; [reflexivity | eexists; reflexivity].
Qed.

(** When the loop goes through, the exception is the one of the [else]
    clause. *)
Lemma split_raises_invalid_split (split : string) (s : TS.t Row Label) :
  9 <= total_trials_num direction fne (TS.index s) ->
  (0 <= TS.split_no s < 3)%Z ->
  TS._split direction fne split s
  = (inl (ValueError (TS.invalid_split_msg split)), s).
Proof.
  intros Hn Hk. unfold TS._split, TS.mbind, TS.gets, TS.lift.
  fold (total_trials_num direction fne (TS.index s)).
  unfold TS.fold_trials.
  rewrite for_each_spec by (try apply outer_folds_long; assumption).
  reflexivity.
Qed.

End SplitFacts.

(** C1 (what the code does). On the recording of eighteen trials with
    fold index 0 the loop accumulates the train, valid and test lists, and
    [_split] then raises for each of the five documented split names,
    instead of selecting the list of the name and reassembling the tensors;
    the stored object is as before. *)
Theorem split_documented_names_raise :
  total_trials_num snd zne (TS.index (rat18 0)) = 18
  /\ (exists l,
         TS.fold_trials 0 18 = inr l
         /\ TS.train_trials l = [2; 3; 4; 5; 8; 9; 10; 11; 14; 15; 16; 17]
         /\ TS.valid_trials l = [1; 7; 13]
         /\ TS.test_trials l = [0; 6; 12])
  /\ Forall (fun split =>
               TS._split snd zne split (rat18 0)
               = (inl (ValueError
                         ("'" ++ split
                            ++ "' is not a valid split. Use 'train', 'valid' or 'test'")%string),
                  rat18 0))
            ["train"; "valid"; "test"; "all"; "wo_test"]%string.
Proof.
  split; [vm_compute; reflexivity|]. split.
  - eexists. split; [vm_compute; reflexivity|]. repeat split.
  - repeat constructor; vm_compute; reflexivity.
Qed.

(** The first failing input of C2: a documented split name on a recording
    of nine trials. *)
Example split_train_raises :
  TS._split snd zne "train" (rat9 0)
  = (inl (ValueError "'train' is not a valid split. Use 'train', 'valid' or 'test'"),
     rat9 0).
Proof. vm_compute. reflexivity. Qed.

(* ================================================================= *)
(** ** More on the trial boundaries *)

Lemma slice_1_2_length_aux {A} (l : list A) :
  length (slice_1_2 l) = length l / 2
  /\ (forall a, length (slice_1_2 (a :: l)) = S (length l) / 2).
Proof.
  induction l as [|b t [IH1 IH2]]; split; try reflexivity.
  - apply IH2.
  - intros a. cbn [slice_1_2 length]. rewrite IH1.
    change (S (S (length t))) with (2 + length t).
    replace (2 + length t) with (length t + 1 * 2) by lia.
    rewrite Nat.div_add by lia. lia.
Qed.

Lemma where_from_length (mask : list bool) (i : Z) :
  length (np.where_from i mask) <= length mask.
Proof.
  revert i; induction mask as [|b m IH]; intros i; simpl; [lia|].
  destruct b; simpl; specialize (IH (i + 1)%Z); lia.
Qed.

Lemma where_from_true (mask : list bool) (i x : Z) :
  In x (np.where_from i mask) ->
  exists p, x = (i + Z.of_nat p)%Z /\ nth_error mask p = Some true.
Proof.
  revert i; induction mask as [|b m IH]; intros i; simpl; [tauto|].
  intros H.
  assert (Hrec : In x (np.where_from (i + 1) m) ->
                 exists p, x = (i + Z.of_nat p)%Z /\ nth_error (b :: m) p = Some true).
  { intros Hx. destruct (IH _ Hx) as [p [-> Hp]]. exists (S p).
    split; [lia | exact Hp]. }
  destruct b; [|exact (Hrec H)].
  destruct H as [<- | H]; [|exact (Hrec H)].
  exists 0. split; [simpl; lia | reflexivity].
Qed.

Lemma map2_nth_error {A B C} (f : A -> B -> C) (l : list A) (r : list B)
      (p : nat) (c : C) :
  nth_error (np.map2 f l r) p = Some c ->
  exists a b, nth_error l p = Some a /\ nth_error r p = Some b /\ c = f a b.
Proof.
  revert r p; induction l as [|x l IH]; intros [|y r] p; simpl;
    try (destruct p; discriminate).
  destruct p as [|p]; simpl.
  - intros [= <-]. now exists x, y.
  - apply IH.
Qed.

Lemma removelast_nth_error {A} (l : list A) (p : nat) (x : A) :
  nth_error (removelast l) p = Some x -> nth_error l p = Some x.
Proof.
  revert p; induction l as [|a [|b t] IH]; intros p.
  - destruct p; discriminate.
  - destruct p; discriminate.
  - change (removelast (a :: b :: t)) with (a :: removelast (b :: t)).
    destruct p as [|p]; simpl; [tauto|]. apply IH.
Qed.

Section MoreBoundaryFacts.

Context {Label F : Type}.
Variable direction : Label -> F.
Variable fne : F -> F -> bool.

(** X1. The number of trials is one more than half the number of direction
    changes (rounded down), for every recording; a recording of [len] rows
    has at most [len - 1] direction changes. *)
Theorem trial_count_from_changes (index : list Label) :
  total_trials_num direction fne index
  = length (direction_change_idx direction fne index) / 2 + 1
  /\ length (direction_change_idx direction fne index) <= length index - 1.
Proof.
  split.
  - unfold total_trials_num, trial_change_idx. cbn [app length].
    rewrite length_app, (proj1 (slice_1_2_length_aux _)). simpl. lia.
  - unfold direction_change_idx, np.where_.
    rewrite <- (direction_change_mask_length direction fne index).
    apply where_from_length.
Qed.

(** X3. Every boundary between two trials is a direction change point:
    for a boundary [b] other than the first and the last one, rows [b] and
    [b + 1] exist and their directions differ. *)
Theorem internal_boundary_is_change (index : list Label) (b : Z) :
  In b (slice_1_2 (direction_change_idx direction fne index)) ->
  exists i r r',
    b = Z.of_nat i
    /\ nth_error index i = Some r
    /\ nth_error index (S i) = Some r'
    /\ fne (direction r') (direction r) = true.
Proof.
  intros Hb. apply slice_1_2_In in Hb.
  unfold direction_change_idx, np.where_ in Hb.
  apply where_from_true in Hb. destruct Hb as [p [-> Hp]].
  unfold direction_change_mask in Hp.
  apply map2_nth_error in Hp. destruct Hp as (a & c & Ha & Hc & Hf).
  rewrite nth_error_map in Ha. rewrite nth_error_map in Hc.
  destruct (nth_error (tl index) p) as [r'|] eqn:Er'; [|discriminate].
  destruct (nth_error (removelast index) p) as [r|] eqn:Er; [|discriminate].
  cbn in Ha, Hc. injection Ha as <-. injection Hc as <-.
  exists p, r, r'. split; [lia|]. split; [|split].
  - apply removelast_nth_error. exact Er.
  - destruct index as [|x t]; [destruct p; discriminate | exact Er'].
  - symmetry. exact Hf.
Qed.

(** X2. On an empty recording the boundary list is [0, 0]: one trial
    without rows, and the list is not strictly increasing.  [_split] then
    fails in the inner cross-validation, whatever the fold index and the
    split name, and leaves the object as it was. *)
Theorem empty_recording_split {Row : Type} (split : string)
        (s : TS.t Row Label) :
  TS.index s = [] ->
  trial_change_idx direction fne (TS.index s) = [0; 0]%Z
  /\ total_trials_num direction fne (TS.index s) = 1
  /\ ~ strictly_increasing (trial_change_idx direction fne (TS.index s))
  /\ TS._split direction fne split s
     = (inl (ValueError "Cannot have number of splits n_splits=3 greater than the number of samples: n_samples=1."),
        s).
Proof.
  intros He. unfold TS._split, TS.mbind, TS.gets, TS.lift. rewrite He.
  repeat split.
  intros H. inversion H as [|? ? _ Hf]; subst. inversion Hf; subst. lia.
Qed.

End MoreBoundaryFacts.

Lemma internal_boundary_is_change_witness :
  In 3%Z (slice_1_2 (direction_change_idx (fun d => d) zne scenario_direction))
  /\ exists i r r',
      3%Z = Z.of_nat i
      /\ nth_error scenario_direction i = Some r
      /\ nth_error scenario_direction (S i) = Some r'
      /\ zne r' r = true.
Proof.
  assert (H : In 3%Z (slice_1_2 (direction_change_idx (fun d => d) zne scenario_direction)))
    by (left; reflexivity).
  split; [exact H|].
  exact (internal_boundary_is_change (fun d => d) zne scenario_direction 3%Z H).
Defined.

Lemma empty_recording_split_witness :
  TS.index (alternating_rat 0 7) = []
  /\ TS._split snd zne "all" (alternating_rat 0 7)
     = (inl (ValueError "Cannot have number of splits n_splits=3 greater than the number of samples: n_samples=1."),
        alternating_rat 0 7).
Proof.
  split; [reflexivity|].
  exact (proj2 (proj2 (proj2 (@empty_recording_split _ _ snd zne Z "all"
                                 (alternating_rat 0 7) eq_refl)))).
Defined.

(* ================================================================= *)
(** ** The fold index and the number of trials *)

Lemma iter_test_indices_length (indices : list nat) (current : nat) (sizes : list nat) :
  length (KFold.iter_test_indices indices current sizes) = length sizes.
Proof.
  revert current; induction sizes as [|x sizes IH]; intros current; simpl;
    [reflexivity | now rewrite IH].
Qed.

Lemma KFold_split_length {A} (n_splits : nat) (X : list A)
      (folds : list (list nat * list nat)) :
  KFold.split n_splits X = inr folds -> length folds = n_splits.
Proof.
  unfold KFold.split. destruct (length X <? n_splits); [discriminate|].
  intros [= <-]. rewrite length_map, iter_test_indices_length.
  unfold KFold.fold_sizes. now rewrite length_map, length_seq.
Qed.

Lemma getitem_wraps {A} (l : list A) (k : Z) :
  (- Z.of_nat (length l) <= k < 0)%Z ->
  getitem l k = getitem l (k + Z.of_nat (length l)).
Proof.
  intros Hk. unfold getitem.
  destruct (Z.ltb_spec k 0) as [_|Hge]; [|lia].
  destruct (Z.ltb_spec (k + Z.of_nat (length l)) 0) as [Hlt|_]; [lia|].
  reflexivity.
Qed.

Lemma getitem_out_of_range {A} (l : list A) (k : Z) :
  (k < - Z.of_nat (length l) \/ Z.of_nat (length l) <= k)%Z ->
  getitem l k = inl IndexError.
Proof.
  intros Hk. unfold getitem.
  destruct (Z.ltb_spec k 0) as [Hneg|Hpos].
  - destruct (Z.leb_spec 0 (k + Z.of_nat (length l))) as [Hge|_]; [lia|].
    reflexivity.
  - destruct (Z.leb_spec 0 k) as [_|Hlt]; [|lia].
    destruct (Z.ltb_spec k (Z.of_nat (length l))) as [Hlt|_]; [lia|].
    reflexivity.
Qed.

Lemma for_each_ext {S A} (body body' : S -> A -> result S) (l : list A) (s : S) :
  (forall s0 x, body s0 x = body' s0 x) ->
  TS.for_each body l s = TS.for_each body' l s.
Proof.
  intros He. revert s; induction l as [|x l IH]; intros s; [reflexivity|].
  cbn [TS.for_each]. rewrite He. destruct (body' s x) as [e|s']; [reflexivity|].
  cbn [bind]. apply IH.
Qed.

(** X4. For a fold index of 0, 1, 2 the loop over the outer folds ends
    with the three lists exactly when there are at least nine trials; with
    fewer it raises. *)
Theorem fold_trials_succeeds_iff (k : Z) (n : nat) :
  (0 <= k < 3)%Z ->
  ((exists l, TS.fold_trials k n = inr l) <-> 9 <= n).
Proof.
  intros Hk. split.
  - intros [l Hl]. destruct (Nat.lt_ge_cases n 9) as [Hlt|Hge]; [|exact Hge].
    destruct (fold_trials_too_few Hlt Hk) as [msg Hmsg]. congruence.
  - intros Hn. eexists. apply for_each_spec; [apply outer_folds_long; exact Hn | exact Hk].
Qed.

Lemma fold_trials_succeeds_iff_witness :
  (0 <= 2 < 3)%Z /\ ((exists l, TS.fold_trials 2 9 = inr l) <-> 9 <= 9).
Proof.
  assert (Hk : (0 <= 2 < 3)%Z) by lia.
  split; [exact Hk | exact (@fold_trials_succeeds_iff 2 9 Hk)].
Defined.

(** X5. A negative fold index counts from the end, as Python list indexing
    does: the fold indices -3, -2, -1 give the lists of 0, 1, 2. *)
Theorem negative_split_no_wraps (k : Z) (n : nat) :
  (-3 <= k < 0)%Z -> TS.fold_trials k n = TS.fold_trials (k + 3) n.
Proof.
  intros Hk. unfold TS.fold_trials. apply for_each_ext. intros l f.
  unfold TS.loop_body.
  destruct (KFold.split 3 f) as [e|folds] eqn:Ef; [reflexivity|].
  cbn [bind]. apply KFold_split_length in Ef.
  rewrite (getitem_wraps folds) by (rewrite Ef; lia).
  rewrite Ef. reflexivity.
Qed.

Lemma negative_split_no_wraps_witness :
  (-3 <= -1 < 0)%Z /\ TS.fold_trials (-1) 12 = TS.fold_trials 2 12.
Proof.
  assert (Hk : (-3 <= -1 < 0)%Z) by lia.
  split; [exact Hk | exact (@negative_split_no_wraps (-1) 12 Hk)].
Defined.

(** X6. With at least nine trials, a fold index outside -3 .. 2 makes the
    loop raise IndexError on the first outer fold. *)
Theorem split_no_out_of_range (k : Z) (n : nat) :
  9 <= n -> (k < -3 \/ 3 <= k)%Z -> TS.fold_trials k n = inl IndexError.
Proof.
  intros Hn Hk. unfold TS.fold_trials.
  pose proof (outer_folds_long Hn) as Hlong.
  rewrite outer_folds_ranges in Hlong |- *.
  inversion Hlong as [|? ? H0 _]; subst.
  cbn [TS.for_each]. unfold TS.loop_body at 1.
  rewrite (KFold_split_3 _ H0). cbn [bind].
  rewrite getitem_out_of_range by (cbn [length]; lia).
  reflexivity.
Qed.

Lemma split_no_out_of_range_witness :
  9 <= 9 /\ (3 < -3 \/ 3 <= 3)%Z /\ TS.fold_trials 3 9 = inl IndexError.
Proof.
  assert (Hn : 9 <= 9) by lia.
  assert (Hk : (3 < -3 \/ 3 <= 3)%Z) by lia.
  split; [exact Hn|]. split; [exact Hk | exact (@split_no_out_of_range 3 9 Hn Hk)].
Defined.

(** The refusal of the inner cross-validation names the size of the
    outer fold that is too short. *)
Lemma fold_trials_too_few_message (k : Z) (n : nat) :
  n < 9 -> (0 <= k < 3)%Z ->
  exists m, m < 3
            /\ TS.fold_trials k n
               = inl (ValueError
                        ("Cannot have number of splits n_splits=3 greater than the number of samples: n_samples="
                           ++ str m ++ ".")%string).
Proof.
  intros Hn Hk.
  assert (Hc : k = 0%Z \/ k = 1%Z \/ k = 2%Z) by lia.
  do 9 (destruct n as [|n];
        [destruct Hc as [-> | [-> | ->]];
         first [ exists 0; split; [lia | vm_compute; reflexivity]
               | exists 1; split; [lia | vm_compute; reflexivity]
               | exists 2; split; [lia | vm_compute; reflexivity] ] |]).
  lia.
Qed.

Section SplitErrors.

Context {Row Label F : Type}.
Variable direction : Label -> F.
Variable fne : F -> F -> bool.

(** X7. For a fold index of 0, 1, 2, the exception of [_split] is decided
    by the number of trials: below nine it is the refusal of the inner
    cross-validation, which names an outer fold of fewer than three trials;
    from nine on it is the error of the [else] clause, which quotes the
    split name.  The object is unchanged in both cases. *)
Theorem split_error_by_trial_count (split : string) (s : TS.t Row Label) :
  (0 <= TS.split_no s < 3)%Z ->
  (total_trials_num direction fne (TS.index s) < 9 ->
   exists m, m < 3
             /\ TS._split direction fne split s
                = (inl (ValueError
                          ("Cannot have number of splits n_splits=3 greater than the number of samples: n_samples="
                             ++ str m ++ ".")%string), s))
  /\ (9 <= total_trials_num direction fne (TS.index s) ->
      TS._split direction fne split s
      = (inl (ValueError ("'" ++ split
                            ++ "' is not a valid split. Use 'train', 'valid' or 'test'")%string),
         s)).
Proof.
  intros Hk. split; intros Hn.
  - destruct (fold_trials_too_few_message Hn Hk) as [m [Hm He]].
    exists m. split; [exact Hm|].
    unfold TS._split, TS.mbind, TS.gets, TS.lift.
    fold (total_trials_num direction fne (TS.index s)). rewrite He. reflexivity.
  - unfold TS._split, TS.mbind, TS.gets, TS.lift.
    fold (total_trials_num direction fne (TS.index s)).
    unfold TS.fold_trials.
    rewrite for_each_spec by (try apply outer_folds_long; assumption).
    reflexivity.
Qed.

End SplitErrors.

Lemma split_error_by_trial_count_witness :
  (0 <= TS.split_no (rat9 1) < 3)%Z
  /\ 9 <= total_trials_num snd zne (TS.index (rat9 1))
  /\ TS._split snd zne "valid" (rat9 1)
     = (inl (ValueError "'valid' is not a valid split. Use 'train', 'valid' or 'test'"),
        rat9 1).
Proof.
  assert (Hk : (0 <= TS.split_no (rat9 1) < 3)%Z) by (cbn; lia).
  assert (Hn : 9 <= total_trials_num snd zne (TS.index (rat9 1)))
    by (vm_compute; lia).
  split; [exact Hk|]. split; [exact Hn|].
  exact (proj2 (@split_error_by_trial_count _ _ _ snd zne "valid" (rat9 1) Hk) Hn).
Defined.

(* ================================================================= *)
(** ** Sizes and order of the three lists *)

Lemma half_facts (r : nat) :
  r - (r + 1) / 2 = r / 2 /\ (r + 1) / 2 <= r / 2 + 1
  /\ r / 2 + (r + 1) / 2 = r /\ (r + 1) / 2 <= r.
Proof.
  pose proof (Nat.div_mod_eq r 2). pose proof (Nat.mod_upper_bound r 2 ltac:(lia)).
  pose proof (Nat.div_mod_eq (r + 1) 2).
  pose proof (Nat.mod_upper_bound (r + 1) 2 ltac:(lia)).
  repeat split; lia.
Qed.

Lemma block_size_half (m i : nat) :
  3 <= m -> 1 <= block_size 3 m i /\ 2 * block_size 3 m i <= m.
Proof.
  intros Hm. unfold block_size.
  pose proof (Nat.div_mod_eq m 3). pose proof (Nat.mod_upper_bound m 3 ltac:(lia)).
  destruct (Nat.ltb_spec i (m mod 3)); lia.
Qed.

Lemma positions_lengths (k : Z) (m : nat) :
  (0 <= k < 3)%Z ->
  length (remainder_positions k m) = block_size 3 m (Z.to_nat k)
  /\ length (train_positions k m) = m - block_size 3 m (Z.to_nat k).
Proof.
  intros Hk. unfold remainder_positions, train_positions, around_block.
  cbn [fst snd]. rewrite length_app, !length_seq.
  pose proof (@block_in_range m (Z.to_nat k) ltac:(lia)). lia.
Qed.

Lemma add_fold_lengths (k : Z) (l : TS.locals) (f : list nat) :
  3 <= length f -> (0 <= k < 3)%Z ->
  exists r,
    1 <= r /\ 2 * r <= length f
    /\ length (TS.train_trials (add_fold k l f))
       = length (TS.train_trials l) + (length f - r)
    /\ length (TS.valid_trials (add_fold k l f))
       = length (TS.valid_trials l) + r / 2
    /\ length (TS.test_trials (add_fold k l f))
       = length (TS.test_trials l) + (r + 1) / 2.
Proof.
  intros Hm Hk. exists (block_size 3 (length f) (Z.to_nat k)).
  destruct (block_size_half (Z.to_nat k) Hm) as [H1 H2].
  destruct (positions_lengths (length f) Hk) as [Hr Ht].
  destruct (half_facts (block_size 3 (length f) (Z.to_nat k))) as (Ha & _ & _ & Hb).
  split; [exact H1|]. split; [exact H2|].
  unfold add_fold. cbn [TS.train_trials TS.valid_trials TS.test_trials].
  unfold trials_at. rewrite !length_app, !length_map, length_skipn, length_firstn, Hr, Ht.
  repeat split; lia.
Qed.

(** X8. Sizes of the three lists, for at least nine trials and a fold
    index of 0, 1, 2: together they have as many entries as there are
    trials; the test list is at least as long as the valid list and at most
    three entries longer (one per outer fold); the train list is at least
    as long as the other two together. *)
Theorem fold_trials_sizes (k : Z) (n : nat) :
  9 <= n -> (0 <= k < 3)%Z ->
  exists l,
    TS.fold_trials k n = inr l
    /\ length (TS.train_trials l) + length (TS.valid_trials l)
       + length (TS.test_trials l) = n
    /\ length (TS.valid_trials l) <= length (TS.test_trials l)
    /\ length (TS.test_trials l) <= length (TS.valid_trials l) + 3
    /\ length (TS.valid_trials l) + length (TS.test_trials l)
       <= length (TS.train_trials l).
Proof.
  intros Hn Hk.
  exists (fold_left (add_fold k) (TS.outer_folds n) TS.locals0).
  split; [apply for_each_spec; [apply outer_folds_long; exact Hn | exact Hk]|].
  pose proof (outer_folds_long Hn) as Hlong.
  destruct (block_sizes_3 n) as (Hcat & _).
  rewrite outer_folds_ranges in Hlong |- *.
  rewrite <- (length_seq (block_size 3 n 0) (block_start 3 n 0)) in Hcat.
  rewrite <- (length_seq (block_size 3 n 1) (block_start 3 n 1)) in Hcat.
  rewrite <- (length_seq (block_size 3 n 2) (block_start 3 n 2)) in Hcat.
  revert Hlong Hcat.
  generalize (seq (block_start 3 n 0) (block_size 3 n 0))
             (seq (block_start 3 n 1) (block_size 3 n 1))
             (seq (block_start 3 n 2) (block_size 3 n 2)).
  intros f0 f1 f2 Hlong Hcat.
  inversion Hlong as [|? ? H0 Hl1]; subst.
  inversion Hl1 as [|? ? H1 Hl2]; subst.
  inversion Hl2 as [|? ? H2 _]; subst.
  cbn [fold_left].
  destruct (@add_fold_lengths k TS.locals0 f0 H0 Hk) as (r0 & ? & ? & Ht0 & Hv0 & He0).
  set (l0 := add_fold k TS.locals0 f0) in *.
  destruct (@add_fold_lengths k l0 f1 H1 Hk) as (r1 & ? & ? & Ht1 & Hv1 & He1).
  set (l1 := add_fold k l0 f1) in *.
  destruct (@add_fold_lengths k l1 f2 H2 Hk) as (r2 & ? & ? & Ht2 & Hv2 & He2).
  set (l2 := add_fold k l1 f2) in *.
  cbn [TS.locals0 TS.train_trials TS.valid_trials TS.test_trials length] in Ht0, Hv0, He0.
  assert (Hhalf : forall r, r / 2 <= (r + 1) / 2 <= r / 2 + 1
                              /\ r / 2 + (r + 1) / 2 = r).
  { intros r. pose proof (Nat.div_mod_eq r 2).
    pose proof (Nat.mod_upper_bound r 2 ltac:(lia)).
    pose proof (Nat.div_mod_eq (r + 1) 2).
    pose proof (Nat.mod_upper_bound (r + 1) 2 ltac:(lia)). lia. }
  pose proof (Hhalf r0). pose proof (Hhalf r1). pose proof (Hhalf r2).
  clearbody l0 l1 l2.
  repeat split; lia.
Qed.

Lemma fold_trials_sizes_witness :
  9 <= 20 /\ (0 <= 1 < 3)%Z
  /\ exists l, TS.fold_trials 1 20 = inr l
               /\ length (TS.valid_trials l) <= length (TS.test_trials l).
Proof.
  assert (Hn : 9 <= 20) by lia.
  assert (Hk : (0 <= 1 < 3)%Z) by lia.
  split; [exact Hn|]. split; [exact Hk|].
  destruct (@fold_trials_sizes 1 20 Hn Hk) as (l & Hl & _ & Hv & _).
  exists l. split; assumption.
Defined.

Lemma sorted_app (l1 l2 : list nat) :
  StronglySorted lt l1 -> StronglySorted lt l2 ->
  (forall x y, In x l1 -> In y l2 -> x < y) ->
  StronglySorted lt (l1 ++ l2).
Proof.
  induction l1 as [|a l1 IH]; intros H1 H2 Hlt; [exact H2|].
  inversion H1 as [|? ? H1' Ha]; subst. cbn [app]. constructor.
  - apply IH; [assumption.. |]. intros x y Hx Hy. apply Hlt; [now right | exact Hy].
  - apply Forall_app. split; [exact Ha|].
    apply Forall_forall. intros y Hy. apply Hlt; [now left | exact Hy].
Qed.

Lemma seq_sorted (a n : nat) : StronglySorted lt (seq a n).
Proof.
  revert a; induction n as [|n IH]; intros a; cbn [seq]; constructor; [apply IH|].
  apply Forall_forall. intros x Hx. apply in_seq in Hx. lia.
Qed.

Lemma map_add_sorted (a : nat) (ps : list nat) :
  StronglySorted lt ps -> StronglySorted lt (map (fun p => a + p) ps).
Proof.
  induction 1 as [|p ps _ IH Hp]; cbn [map]; constructor; [exact IH|].
  rewrite Forall_forall in Hp |- *. intros y Hy.
  apply in_map_iff in Hy. destruct Hy as [q [<- Hq]]. specialize (Hp q Hq). lia.
Qed.

Lemma trials_at_seq (a m : nat) (ps : list nat) :
  (forall p, In p ps -> p < m) ->
  trials_at (seq a m) ps = map (fun p => a + p) ps.
Proof.
  intros H. unfold trials_at. apply map_ext_in. intros p Hp.
  apply seq_nth. apply H. exact Hp.
Qed.

Lemma add_fold_ascending (k : Z) (l : TS.locals) (a m : nat) :
  (0 <= k < 3)%Z -> ascending_below a l ->
  ascending_below (a + m) (add_fold k l (seq a m)).
Proof.
  intros Hk (Ht & Hv & He & Hb).
  pose proof (@block_in_range m (Z.to_nat k) ltac:(lia)) as Hr.
  assert (Hbt : forall x, In x (TS.train_trials l) -> x < a)
    by (intros x Hx; apply Hb; unfold all_assigned; rewrite !in_app_iff; tauto).
  assert (Hbv : forall x, In x (TS.valid_trials l) -> x < a)
    by (intros x Hx; apply Hb; unfold all_assigned; rewrite !in_app_iff; tauto).
  assert (Hbe : forall x, In x (TS.test_trials l) -> x < a)
    by (intros x Hx; apply Hb; unfold all_assigned; rewrite !in_app_iff; tauto).
  unfold ascending_below, all_assigned, add_fold.
  cbn [TS.train_trials TS.valid_trials TS.test_trials].
  rewrite length_seq.
  set (h := (length (remainder_positions k m) + 1) / 2).
  assert (Hpt : forall p, In p (train_positions k m) -> p < m)
    by (intros p; apply train_positions_bound; exact Hk).
  assert (Hpr : forall p, In p (remainder_positions k m) -> p < m)
    by (intros p; apply remainder_positions_bound; exact Hk).
  assert (Hpv : forall p, In p (skipn h (remainder_positions k m)) -> p < m).
  { intros p Hp. apply Hpr. rewrite <- (firstn_skipn h (remainder_positions k m)).
    apply in_or_app. now right. }
  assert (Hpe : forall p, In p (firstn h (remainder_positions k m)) -> p < m).
  { intros p Hp. apply Hpr. rewrite <- (firstn_skipn h (remainder_positions k m)).
    apply in_or_app. now left. }
  rewrite (@trials_at_seq a m _ Hpt), (@trials_at_seq a m _ Hpv),
    (@trials_at_seq a m _ Hpe).
  assert (Hnew : forall ps, (forall p, In p ps -> p < m) ->
                            forall y, In y (map (fun p => a + p) ps) -> a <= y < a + m).
  { intros ps Hps y Hy. apply in_map_iff in Hy. destruct Hy as [q [<- Hq]].
    specialize (Hps q Hq). lia. }
  assert (Hst : StronglySorted lt (train_positions k m)).
  { unfold train_positions, around_block. cbn [fst].
    apply sorted_app; [apply seq_sorted.. |].
    intros x y Hx Hy. apply in_seq in Hx. apply in_seq in Hy. lia. }
  assert (Hsv : StronglySorted lt (skipn h (remainder_positions k m))).
  { unfold remainder_positions, around_block. cbn [snd].
    rewrite skipn_seq. apply seq_sorted. }
  assert (Hse : StronglySorted lt (firstn h (remainder_positions k m))).
  { unfold remainder_positions, around_block. cbn [snd].
    rewrite firstn_seq. apply seq_sorted. }
  repeat split.
  - apply sorted_app; [exact Ht | apply map_add_sorted, Hst |].
    intros x y Hx Hy. apply Hbt in Hx. apply (Hnew _ Hpt) in Hy. lia.
  - apply sorted_app; [exact Hv | apply map_add_sorted, Hsv |].
    intros x y Hx Hy. apply Hbv in Hx. apply (Hnew _ Hpv) in Hy. lia.
  - apply sorted_app; [exact He | apply map_add_sorted, Hse |].
    intros x y Hx Hy. apply Hbe in Hx. apply (Hnew _ Hpe) in Hy. lia.
  - intros x. rewrite !in_app_iff.
    intros [[Hx|Hx] | [[Hx|Hx] | [Hx|Hx]]];
      first [ apply Hbt in Hx; lia | apply Hbv in Hx; lia | apply Hbe in Hx; lia
            | apply (Hnew _ Hpt) in Hx; lia | apply (Hnew _ Hpv) in Hx; lia
            | apply (Hnew _ Hpe) in Hx; lia ].
Qed.

(** X9. For at least nine trials and a fold index of 0, 1, 2, each of the
    train, valid and test lists is in strictly ascending order of trial
    number (the accumulation over the outer folds keeps the order of the
    recording inside each list). *)
Theorem fold_trials_ascending (k : Z) (n : nat) :
  9 <= n -> (0 <= k < 3)%Z ->
  exists l,
    TS.fold_trials k n = inr l
    /\ StronglySorted lt (TS.train_trials l)
    /\ StronglySorted lt (TS.valid_trials l)
    /\ StronglySorted lt (TS.test_trials l).
Proof.
  intros Hn Hk.
  exists (fold_left (add_fold k) (TS.outer_folds n) TS.locals0).
  split; [apply for_each_spec; [apply outer_folds_long; exact Hn | exact Hk]|].
  rewrite outer_folds_ranges.
  destruct (block_sizes_3 n) as (_ & -> & -> & -> & _).
  cbn [fold_left].
  assert (H0 : ascending_below 0 TS.locals0).
  { unfold ascending_below, all_assigned. cbn. repeat split; try constructor.
    intros x []. }
  pose proof (@add_fold_ascending k _ _ (block_size 3 n 0) Hk H0) as H1.
  pose proof (@add_fold_ascending k _ _ (block_size 3 n 1) Hk H1) as H2.
  pose proof (@add_fold_ascending k _ _ (block_size 3 n 2) Hk H2) as (Ht & Hv & He & _).
  cbn [Nat.add] in *. repeat split; assumption.
Qed.

Lemma fold_trials_ascending_witness :
  9 <= 18 /\ (0 <= 0 < 3)%Z
  /\ exists l, TS.fold_trials 0 18 = inr l /\ StronglySorted lt (TS.train_trials l).
Proof.
  assert (Hn : 9 <= 18) by lia.
  assert (Hk : (0 <= 0 < 3)%Z) by lia.
  split; [exact Hn|]. split; [exact Hk|].
  destruct (@fold_trials_ascending 0 18 Hn Hk) as (l & Hl & Ht & _).
  exists l. split; assumption.
Defined.

(* ================================================================= *)
(** ** Reassembly: full range, empty selection, row counts *)

Lemma assemble_ok {Row Label} (tci : list Z) (ts : list nat) (s : TS.t Row Label) :
  ts <> [] -> (forall i, In i ts -> S i < length tci) ->
  TS.assemble tci ts s
  = (inr tt,
     {| TS.neural := concat (map (rows_of tci (TS.neural s)) ts);
        TS.index := concat (map (rows_of tci (TS.index s)) ts);
        TS.name := TS.name s;
        TS.split_no := TS.split_no s;
        TS.split_name := TS.split_name s;
        TS.selected_indices :=
          Some (map (fun i => (nth i tci 0%Z, nth (S i) tci 0%Z)) ts);
        TS.concat_idx := Some (map (offset_after tci ts) (gap_positions ts)) |}).
Proof.
  intros Hne Hin.
  assert (Hsel : mapM (TS.trial_slice tci) ts
                 = inr (map (fun i => (nth i tci 0%Z, nth (S i) tci 0%Z)) ts)).
  { apply mapM_ok. intros i Hi. apply trial_slice_ok, Hin, Hi. }
  assert (Hrows : forall (A : Type) (t : list A),
             (segs <- mapM (trial_rows tci t) ts ;; torch.cat segs)%py
             = inr (concat (map (rows_of tci t) ts))).
  { intros A t. rewrite (mapM_ok _ (rows_of tci t)).
    - cbn [bind]. destruct ts as [|i0 ts']; [congruence | reflexivity].
    - intros i Hi. apply trial_rows_ok, Hin, Hi. }
  pose proof (discontinuities_ok tci ts Hin) as Hd.
  unfold TS.assemble, TS.mbind, TS.lift, TS.modify, TS.gets.
  rewrite Hsel. cbn [TS.neural TS.index TS.set_selected_indices].
  rewrite Hrows. cbn [TS.neural TS.index TS.set_neural].
  rewrite Hrows, Hd. reflexivity.
Qed.

Lemma gap_positions_seq (n : nat) : gap_positions (seq 0 n) = [].
Proof.
  unfold gap_positions. apply filter_none. intros p Hp.
  apply in_seq in Hp. rewrite length_seq in Hp.
  rewrite !seq_nth by lia. apply negb_false_iff, Nat.eqb_eq. lia.
Qed.

Lemma filter_sorted (f : nat -> bool) (l : list nat) :
  StronglySorted lt l -> StronglySorted lt (filter f l).
Proof.
  induction 1 as [|x l _ IH Hx]; cbn [filter]; [constructor|].
  destruct (f x); [|exact IH]. constructor; [exact IH|].
  rewrite Forall_forall in Hx |- *. intros y Hy.
  apply filter_In in Hy. apply Hx, Hy.
Qed.

Lemma sorted_nth_lt (l : list Z) (i j : nat) :
  strictly_increasing l -> i < j -> j < length l ->
  (nth i l 0 < nth j l 0)%Z.
Proof.
  intros Hs. revert i j. induction Hs as [|a l Hs IH Ha]; intros i j Hij Hj;
    [simpl in Hj; lia|].
  destruct j as [|j]; [lia|]. simpl in Hj.
  destruct i as [|i]; cbn [nth].
  - rewrite Forall_forall in Ha. apply Ha. apply nth_In. lia.
  - apply IH; lia.
Qed.

Lemma sorted_nth_le_last (l : list Z) (i : nat) :
  strictly_increasing l -> i < length l -> (nth i l 0 <= last l 0)%Z.
Proof.
  revert i; induction l as [|a t IH]; intros i Hs Hi; [simpl in Hi; lia|].
  destruct i as [|i].
  - apply (sorted_last_ge Hs).
  - simpl in Hi. inversion Hs as [|? ? Hs' _]; subst.
    destruct t as [|b t']; [simpl in Hi; lia|].
    change (last (a :: b :: t') 0%Z) with (last (b :: t') 0%Z).
    cbn [nth]. apply IH; [exact Hs' | simpl in *; lia].
Qed.

(** Partial sums of the segment lengths grow by at least one per segment. *)
Lemma prefix_sums_grow (g : nat -> Z) (ts : list nat) (p q : nat) :
  (forall x, In x ts -> (0 < g x)%Z) -> p <= q -> q <= length ts ->
  (fold_right Z.add 0 (map g (firstn p ts)) + Z.of_nat (q - p)
   <= fold_right Z.add 0 (map g (firstn q ts)))%Z.
Proof.
  revert p q; induction ts as [|x ts IH]; intros p q Hg Hpq Hq.
  - simpl in Hq. replace q with 0 by lia. replace p with 0 by lia. simpl. lia.
  - destruct q as [|q]; [replace p with 0 by lia; simpl; lia|].
    simpl in Hq.
    assert (Hx : (0 < g x)%Z) by (apply Hg; now left).
    assert (Hg' : forall y, In y ts -> (0 < g y)%Z) by (intros y Hy; apply Hg; now right).
    destruct p as [|p]; cbn [firstn map fold_right].
    + pose proof (IH 0 q Hg' ltac:(lia) ltac:(lia)) as H. cbn [firstn map fold_right] in H.
      lia.
    + pose proof (IH p q Hg' ltac:(lia) ltac:(lia)) as H.
      replace (S q - S p) with (q - p) by lia. lia.
Qed.

Lemma map_sorted_Z (f : nat -> Z) (l : list nat) :
  StronglySorted lt l ->
  (forall x y, In x l -> In y l -> x < y -> (f x < f y)%Z) ->
  strictly_increasing (map f l).
Proof.
  induction 1 as [|x l Hs IH Hx]; intros Hf; cbn [map]; constructor.
  - apply IH. intros a b Ha Hb. apply Hf; now right.
  - rewrite Forall_forall in Hx |- *. intros y Hy.
    apply in_map_iff in Hy. destruct Hy as [z [<- Hz]].
    apply Hf; [now left | now right | apply Hx, Hz].
Qed.

Lemma segment_length_positive (tci : list Z) (i : nat) :
  strictly_increasing tci -> S i < length tci -> (0 < segment_length tci i)%Z.
Proof.
  intros Hs Hi. unfold segment_length.
  pose proof (@sorted_nth_lt tci i (S i) Hs ltac:(lia) Hi). lia.
Qed.

(** X10. With strictly increasing boundaries and selected trials in range,
    the discontinuity offsets are strictly increasing, each lies strictly
    between 0 and the number of rows of the concatenation, and there is at
    most one per pair of neighbours in the selected list. *)
Theorem discontinuities_inside (tci : list Z) (trials : list nat) :
  strictly_increasing tci ->
  (forall i, In i trials -> S i < length tci) ->
  exists offsets,
    TS.discontinuities tci trials = inr offsets
    /\ strictly_increasing offsets
    /\ (forall x, In x offsets ->
                  (0 < x < fold_right Z.add 0 (map (segment_length tci) trials))%Z)
    /\ length offsets <= length trials - 1.
Proof.
  intros Hs Hin.
  exists (map (offset_after tci trials) (gap_positions trials)).
  split; [apply discontinuities_ok; exact Hin|].
  assert (Hg : forall x, In x trials -> (0 < segment_length tci x)%Z)
    by (intros x Hx; apply segment_length_positive; [exact Hs | apply Hin, Hx]).
  assert (Hgap : forall p, In p (gap_positions trials) -> S p < length trials).
  { intros p Hp. unfold gap_positions in Hp. apply filter_In in Hp.
    destruct Hp as [Hp _]. apply in_seq in Hp. lia. }
  split; [|split].
  - apply map_sorted_Z.
    + unfold gap_positions. apply filter_sorted, seq_sorted.
    + intros x y Hx Hy Hxy. apply Hgap in Hy. unfold offset_after.
      pose proof (@prefix_sums_grow (segment_length tci) trials (S x) (S y) Hg
                    ltac:(lia) ltac:(lia)). lia.
  - intros x Hx. apply in_map_iff in Hx. destruct Hx as [p [<- Hp]].
    apply Hgap in Hp. unfold offset_after.
    pose proof (@prefix_sums_grow (segment_length tci) trials 0 (S p) Hg
                  ltac:(lia) ltac:(lia)) as H1.
    pose proof (@prefix_sums_grow (segment_length tci) trials (S p) (length trials) Hg
                  ltac:(lia) ltac:(lia)) as H2.
    rewrite firstn_all in H2. change (firstn 0 trials) with (@nil nat) in H1.
    cbn [map fold_right] in H1. lia.
  - rewrite length_map. unfold gap_positions.
    etransitivity; [apply filter_length_le|]. now rewrite length_seq.
Qed.

Lemma discontinuities_inside_witness :
  strictly_increasing [0; 1; 3; 5; 7; 9; 11; 13; 15; 18]%Z
  /\ (forall i, In i [1; 2; 4; 5; 7; 8] ->
                S i < length [0; 1; 3; 5; 7; 9; 11; 13; 15; 18]%Z)
  /\ exists offsets,
      TS.discontinuities [0; 1; 3; 5; 7; 9; 11; 13; 15; 18]%Z [1; 2; 4; 5; 7; 8]
      = inr offsets
      /\ strictly_increasing offsets.
Proof.
  assert (Hs : strictly_increasing [0; 1; 3; 5; 7; 9; 11; 13; 15; 18]%Z).
  { unfold strictly_increasing.
    repeat (constructor; [|repeat (constructor; [lia|]); constructor]).
    constructor. }
  assert (H : forall i, In i [1; 2; 4; 5; 7; 8] ->
                        S i < length [0; 1; 3; 5; 7; 9; 11; 13; 15; 18]%Z).
  { intros i Hi. simpl in Hi. simpl. lia. }
  split; [exact Hs|]. split; [exact H|].
  destruct (@discontinuities_inside _ _ Hs H) as (offs & Ho & Hso & _).
  exists offs. split; assumption.
Defined.

Lemma slice_length {A} (a b : nat) (t : list A) :
  a <= b -> b <= length t -> length (slice a b t) = b - a.
Proof.
  intros Hab Hb. unfold slice. rewrite length_firstn, length_skipn. lia.
Qed.

Lemma rows_count {A} (tci : list Z) (t : list A) (ts : list nat) :
  strictly_increasing tci -> nth 0 tci 0%Z = 0%Z ->
  last tci 0%Z = Z.of_nat (length t) ->
  (forall i, In i ts -> S i < length tci) ->
  Z.of_nat (length (concat (map (rows_of tci t) ts)))
  = fold_right Z.add 0%Z (map (segment_length tci) ts).
Proof.
  intros Hs H0 Hl Hin. induction ts as [|i ts IH]; [reflexivity|].
  cbn [map concat fold_right]. rewrite length_app, Nat2Z.inj_add.
  rewrite IH by (intros j Hj; apply Hin; now right). f_equal.
  assert (Hi : S i < length tci) by (apply Hin; now left).
  pose proof (@sorted_nth_lt tci i (S i) Hs ltac:(lia) Hi) as Hlt.
  pose proof (@sorted_nth_le_last tci (S i) Hs Hi) as Hle.
  assert (Hge : (0 <= nth i tci 0)%Z).
  { destruct i as [|i']; [lia|].
    pose proof (@sorted_nth_lt tci 0 (S i') Hs ltac:(lia) ltac:(lia)). lia. }
  unfold rows_of, segment_length. rewrite slice_length; lia.
Qed.

Section ReassemblyFacts.

Context {Row Label F : Type}.
Variable direction : Label -> F.
Variable fne : F -> F -> bool.

Lemma trial_change_idx_ends (index : list Label) :
  nth 0 (trial_change_idx direction fne index) 0%Z = 0%Z
  /\ last (trial_change_idx direction fne index) 0%Z = Z.of_nat (length index).
Proof.
  split; [reflexivity|]. unfold trial_change_idx. apply last_last.
Qed.

Lemma all_rows {A} (index : list Label) (t : list A) :
  index <> [] -> length t = length index ->
  concat (map (rows_of (trial_change_idx direction fne index) t)
              (seq 0 (total_trials_num direction fne index)))
  = t.
Proof.
  intros Hne Ht.
  pose proof (trial_change_idx_sorted direction fne Hne) as Hs.
  destruct (trial_change_idx_ends index) as [_ Hlast].
  unfold total_trials_num. revert Hs Hlast. unfold trial_change_idx.
  cbn [app length].
  generalize (slice_1_2 (direction_change_idx direction fne index)
                ++ [Z.of_nat (length index)]).
  intros rest Hs Hlast.
  replace (S (length rest) - 1) with (length rest) by lia.
  rewrite concat_rows by (try exact Hs; lia).
  rewrite Hlast, Nat2Z.id. unfold slice. cbn [skipn Z.to_nat].
  rewrite Nat.sub_0_r, <- Ht. apply firstn_all.
Qed.

(** X11. Reassembling along the full ascending trial range
    [arange(total_trials_num)] of a non-empty recording whose neural tensor
    has as many rows as its behaviour tensor leaves both tensors as they
    were and marks no discontinuity. *)
Theorem full_range_unchanged (s : TS.t Row Label) :
  TS.index s <> [] -> length (TS.neural s) = length (TS.index s) ->
  exists s',
    TS.assemble (trial_change_idx direction fne (TS.index s))
                (np.arange (total_trials_num direction fne (TS.index s))) s
    = (inr tt, s')
    /\ TS.neural s' = TS.neural s
    /\ TS.index s' = TS.index s
    /\ TS.concat_idx s' = Some []
    /\ option_map (@length (Z * Z)) (TS.selected_indices s')
       = Some (total_trials_num direction fne (TS.index s)).
Proof.
  intros Hne Hlen. eexists. split.
  - apply assemble_ok.
    + assert (H1 : 1 <= total_trials_num direction fne (TS.index s)).
      { unfold total_trials_num, trial_change_idx.
        cbn [app length]. rewrite length_app. cbn [length]. lia. }
      unfold np.arange.
      destruct (total_trials_num direction fne (TS.index s)); [lia | discriminate].
    + intros i Hi. apply in_seq in Hi. rewrite trial_change_idx_length. lia.
  - cbn [TS.neural TS.index TS.concat_idx TS.selected_indices option_map].
    unfold np.arange.
    rewrite (all_rows (TS.neural s) Hne Hlen), (all_rows (TS.index s) Hne eq_refl),
      gap_positions_seq, length_map, length_seq.
    repeat split.
Qed.

(** X12. For an empty selected list the reassembly fails in [torch.cat]
    on the neural tensor, after [selected_indices] was already replaced by
    the empty tuple; the tensors and [concat_idx] are as before. *)
Theorem assemble_empty_selection (tci : list Z) (s : TS.t Row Label) :
  fst (TS.assemble tci [] s) = inl RuntimeError
  /\ TS.selected_indices (snd (TS.assemble tci [] s)) = Some []
  /\ TS.neural (snd (TS.assemble tci [] s)) = TS.neural s
  /\ TS.index (snd (TS.assemble tci [] s)) = TS.index s
  /\ TS.concat_idx (snd (TS.assemble tci [] s)) = TS.concat_idx s.
Proof. repeat split. Qed.

(** X13. After the reassembly along a non-empty list of trial numbers of
    the recording, the neural and the behaviour tensor have the same number
    of rows, the sum of the lengths of the selected segments, when they had
    the same number of rows before. *)
Theorem reassembled_row_count (s : TS.t Row Label) (ts : list nat) :
  TS.index s <> [] -> length (TS.neural s) = length (TS.index s) ->
  ts <> [] ->
  (forall i, In i ts -> i < total_trials_num direction fne (TS.index s)) ->
  exists s',
    TS.assemble (trial_change_idx direction fne (TS.index s)) ts s = (inr tt, s')
    /\ length (TS.neural s') = length (TS.index s')
    /\ Z.of_nat (length (TS.neural s'))
       = fold_right Z.add 0%Z
           (map (segment_length (trial_change_idx direction fne (TS.index s))) ts).
Proof.
  intros Hne Hlen Hts Hin.
  assert (Hin' : forall i, In i ts ->
                           S i < length (trial_change_idx direction fne (TS.index s))).
  { intros i Hi. rewrite trial_change_idx_length. apply Hin in Hi. lia. }
  pose proof (trial_change_idx_sorted direction fne Hne) as Hs.
  destruct (trial_change_idx_ends (TS.index s)) as [H0 Hlast].
  eexists. split; [apply assemble_ok; assumption|].
  cbn [TS.neural TS.index].
  pose proof (@rows_count _ _ (TS.index s) ts Hs H0 Hlast Hin') as Hi.
  rewrite <- Hlen in Hlast.
  pose proof (@rows_count _ _ (TS.neural s) ts Hs H0 Hlast Hin') as Hn.
  split; [lia | exact Hn].
Qed.

End ReassemblyFacts.

Lemma full_range_unchanged_witness :
  TS.index (rat9 0) <> []
  /\ length (TS.neural (rat9 0)) = length (TS.index (rat9 0))
  /\ exists s',
      TS.assemble (trial_change_idx snd zne (TS.index (rat9 0)))
                  (np.arange (total_trials_num snd zne (TS.index (rat9 0)))) (rat9 0)
      = (inr tt, s')
      /\ TS.neural s' = TS.neural (rat9 0).
Proof.
  assert (Hne : TS.index (rat9 0) <> []) by discriminate.
  assert (Hlen : length (TS.neural (rat9 0)) = length (TS.index (rat9 0)))
    by reflexivity.
  split; [exact Hne|]. split; [exact Hlen|].
  destruct (@full_range_unchanged _ _ _ snd zne (rat9 0) Hne Hlen)
    as (s' & Hs & Hn & _).
  exists s'. split; assumption.
Defined.

Lemma reassembled_row_count_witness :
  TS.index (rat9 0) <> []
  /\ length (TS.neural (rat9 0)) = length (TS.index (rat9 0))
  /\ [0; 3; 6] <> []
  /\ (forall i, In i [0; 3; 6] -> i < total_trials_num snd zne (TS.index (rat9 0)))
  /\ exists s',
      TS.assemble (trial_change_idx snd zne (TS.index (rat9 0))) [0; 3; 6] (rat9 0)
      = (inr tt, s')
      /\ length (TS.neural s') = length (TS.index s').
Proof.
  assert (Hne : TS.index (rat9 0) <> []) by discriminate.
  assert (Hlen : length (TS.neural (rat9 0)) = length (TS.index (rat9 0)))
    by reflexivity.
  assert (Hts : [0; 3; 6] <> []) by discriminate.
  assert (Hin : forall i, In i [0; 3; 6] ->
                          i < total_trials_num snd zne (TS.index (rat9 0))).
  { intros i Hi. change (total_trials_num snd zne (TS.index (rat9 0))) with 9.
    simpl in Hi. lia. }
  repeat (split; [assumption|]).
  destruct (@reassembled_row_count _ _ _ snd zne (rat9 0) [0; 3; 6] Hne Hlen Hts Hin)
    as (s' & Hs & Hr & _).
  exists s'. split; assumption.
Defined.

(* ================================================================= *)
(** ** The corrupted-label variant on short recordings *)

(** X14. A recording of at most one row is not changed by the
    corrupted-label variant, for every non-negative seed: the shuffle loop
    runs over [range(1, n)], which is empty, and no number is drawn.  (A
    negative seed is refused before.) *)
Theorem corrupt_short_recording {Row Label BitGen : Type}
        (PCG64 : Z -> BitGen) (random_interval : BitGen -> nat -> nat * BitGen)
        (name : string) (seed : Z) (spikes : list Row) (position : list Label) :
  (0 <= seed)%Z -> length position <= 1 ->
  SingleRatCorruptDataset.init PCG64 random_interval name seed spikes position
  = inr (SingleRatDataset.init name spikes position).
Proof.
  intros Hseed Hlen. unfold SingleRatCorruptDataset.init, shuffle.
  rewrite (new_PCG64_accepts PCG64 Hseed). cbn [bind].
  cbn [SingleRatDataset.init SingleRatDataset.index SingleRatDataset.neural
       SingleRatDataset.name].
  unfold np.arange. rewrite length_seq.
  destruct position as [|r [|r' rest]]; [reflexivity | reflexivity |].
  simpl in Hlen. lia.
Qed.

Lemma corrupt_short_recording_witness :
  (0 <= 42)%Z /\ length [(5, 1)%Z] <= 1
  /\ SingleRatCorruptDataset.init example_PCG64 example_interval
       "achilles" 42 [7%Z] [(5, 1)%Z]
     = inr (SingleRatDataset.init "achilles" [7%Z] [(5, 1)%Z]).
Proof.
  assert (Hs : (0 <= 42)%Z) by lia.
  assert (H : length [(5, 1)%Z] <= 1) by (simpl; lia).
  split; [exact Hs|]. split; [exact H|].
  exact (@corrupt_short_recording Z (Z * Z) Z example_PCG64 example_interval
           "achilles" 42 [7%Z] [(5, 1)%Z] Hs H).
Defined.

(* ================================================================= *)
(** ** The constructor, the three fold indices together, the outer folds *)

(** X15. The constructor of the trial-split dataset returns normally
    exactly when no split is requested; it then stores the two arrays, the
    name and the fold index and sets neither [selected_indices] nor
    [concat_idx]. *)
Theorem init_succeeds_without_split {Row Label F : Type}
        (direction : Label -> F) (fne : F -> F -> bool)
        (name : string) (spikes : list Row) (position : list Label)
        (split_no : Z) (split : option string) :
  (fst (TS.init direction fne name spikes position split_no split) = inr tt
   <-> split = None)
  /\ TS.init direction fne name spikes position split_no None
     = (inr tt,
        {| TS.neural := spikes; TS.index := position; TS.name := name;
           TS.split_no := split_no; TS.split_name := None;
           TS.selected_indices := None; TS.concat_idx := None |}).
Proof.
  split; [|reflexivity].
  destruct split as [sp|]; [|split; reflexivity].
  split; [|discriminate]. intros H. exfalso. revert H.
  unfold TS.init, TS._split, TS.mbind, TS.gets, TS.lift.
  cbn [TS.index TS.split_no].
  destruct (TS.fold_trials split_no
              (length (trial_change_idx direction fne position) - 1));
    cbn; discriminate.
Qed.

(** X18. For every number of trials the outer folds are three
    consecutive ranges that make up [0 .. n-1]; fold [i] has [n // 3] trials,
    one more when [i < n % 3], so that the sizes never increase and differ
    by at most one (with fewer than three trials the last folds are
    empty). *)
Theorem outer_folds_any_count (n : nat) :
  exists f0 f1 f2,
    TS.outer_folds n = [f0; f1; f2]
    /\ f0 ++ f1 ++ f2 = seq 0 n
    /\ length f0 = n / 3 + (if 0 <? n mod 3 then 1 else 0)
    /\ length f1 = n / 3 + (if 1 <? n mod 3 then 1 else 0)
    /\ length f2 = n / 3
    /\ length f2 <= length f1 <= length f0
    /\ length f0 <= length f2 + 1.
Proof.
  rewrite outer_folds_ranges.
  destruct (block_sizes_3 n) as (Hsum & H0 & H1 & H2 & Hle & Hge & _).
  do 3 eexists. split; [reflexivity|].
  rewrite !length_seq. split.
  - rewrite H0, H1, H2, <- !seq_app. f_equal. lia.
  - repeat split; try lia; try reflexivity.
    unfold block_size. pose proof (Nat.mod_upper_bound n 3 ltac:(lia)).
    destruct (Nat.ltb_spec 2 (n mod 3)); lia.
Qed.

Lemma remainder_positions_cover (m : nat) :
  remainder_positions 0 m ++ remainder_positions 1 m ++ remainder_positions 2 m
  = seq 0 m.
Proof.
  unfold remainder_positions, around_block. cbn [snd].
  change (Z.to_nat 0) with 0. change (Z.to_nat 1) with 1. change (Z.to_nat 2) with 2.
  destruct (block_sizes_3 m) as (Hsum & -> & -> & -> & _).
  rewrite <- !seq_app. f_equal. lia.
Qed.

Lemma count_trials_at (f : list nat) (ps qs : list nat) (x : nat) :
  count_occ Nat.eq_dec (trials_at f (ps ++ qs)) x
  = count_occ Nat.eq_dec (trials_at f ps) x + count_occ Nat.eq_dec (trials_at f qs) x.
Proof. unfold trials_at. now rewrite map_app, count_occ_app. Qed.

Lemma held_out_add_fold (k : Z) (l : TS.locals) (f : list nat) (x : nat) :
  count_occ Nat.eq_dec (held_out (add_fold k l f)) x
  = count_occ Nat.eq_dec (held_out l) x
    + count_occ Nat.eq_dec (trials_at f (remainder_positions k (length f))) x.
Proof.
  unfold held_out, add_fold. cbn [TS.valid_trials TS.test_trials].
  set (r := remainder_positions k (length f)).
  set (h := (length r + 1) / 2).
  rewrite <- (firstn_skipn h r) at 3.
  rewrite count_trials_at, !count_occ_app. lia.
Qed.

Lemma count_fold_cover (f : list nat) (x : nat) :
  count_occ Nat.eq_dec (trials_at f (remainder_positions 0 (length f))) x
  + count_occ Nat.eq_dec (trials_at f (remainder_positions 1 (length f))) x
  + count_occ Nat.eq_dec (trials_at f (remainder_positions 2 (length f))) x
  = count_occ Nat.eq_dec f x.
Proof.
  rewrite <- Nat.add_assoc, <- !count_trials_at, remainder_positions_cover.
  unfold trials_at. now rewrite map_nth_seq.
Qed.

(** X16. With at least nine trials, every trial is held out of training
    (in the valid or the test list) for exactly one of the three fold
    indices 0, 1, 2. *)
Theorem held_out_once (n : nat) :
  9 <= n ->
  exists l0 l1 l2,
    TS.fold_trials 0 n = inr l0
    /\ TS.fold_trials 1 n = inr l1
    /\ TS.fold_trials 2 n = inr l2
    /\ Permutation (held_out l0 ++ held_out l1 ++ held_out l2) (seq 0 n).
Proof.
  intros Hn.
  exists (fold_left (add_fold 0) (TS.outer_folds n) TS.locals0),
    (fold_left (add_fold 1) (TS.outer_folds n) TS.locals0),
    (fold_left (add_fold 2) (TS.outer_folds n) TS.locals0).
  pose proof (outer_folds_long Hn) as Hlong.
  split; [apply for_each_spec; [exact Hlong | lia]|].
  split; [apply for_each_spec; [exact Hlong | lia]|].
  split; [apply for_each_spec; [exact Hlong | lia]|].
  rewrite <- (concat_outer_folds n). clear Hlong Hn.
  destruct (TS.outer_folds n) as [|f0 [|f1 [|f2 [|f3 fs]]]] eqn:Ef;
    try (rewrite outer_folds_ranges in Ef; discriminate Ef).
  cbn [fold_left concat]. rewrite app_nil_r.
  apply (Permutation_count_occ Nat.eq_dec). intros x.
  rewrite !count_occ_app, !held_out_add_fold.
  pose proof (count_fold_cover f0 x). pose proof (count_fold_cover f1 x).
  pose proof (count_fold_cover f2 x).
  change (count_occ Nat.eq_dec (held_out TS.locals0) x) with 0. lia.
Qed.

Lemma held_out_once_witness :
  9 <= 9
  /\ exists l0 l1 l2,
      TS.fold_trials 0 9 = inr l0 /\ TS.fold_trials 1 9 = inr l1
      /\ TS.fold_trials 2 9 = inr l2
      /\ Permutation (held_out l0 ++ held_out l1 ++ held_out l2) (seq 0 9).
Proof.
  assert (Hn : 9 <= 9) by lia.
  split; [exact Hn | exact (@held_out_once 9 Hn)].
Defined.

(* ================================================================= *)
(** ** The rows of the three lists together *)

Lemma sum_permutation (g : nat -> Z) (l l' : list nat) :
  Permutation l l' ->
  fold_right Z.add 0%Z (map g l) = fold_right Z.add 0%Z (map g l').
Proof.
  induction 1; cbn [map fold_right]; lia.
Qed.

Lemma sum_app (g : nat -> Z) (l l' : list nat) :
  fold_right Z.add 0%Z (map g (l ++ l'))
  = (fold_right Z.add 0 (map g l) + fold_right Z.add 0 (map g l'))%Z.
Proof.
  induction l as [|x l IH]; cbn [app map fold_right]; lia.
Qed.

Section RowsOfSplits.

Context {Label F : Type}.
Variable direction : Label -> F.
Variable fne : F -> F -> bool.

(** X17. For a recording of at least nine trials and a fold index of 0,
    1, 2, the segments of the train, valid and test trials have together
    exactly as many rows as the recording. *)
Theorem splits_cover_rows (index : list Label) (k : Z) :
  9 <= total_trials_num direction fne index -> (0 <= k < 3)%Z ->
  let tci := trial_change_idx direction fne index in
  exists l,
    TS.fold_trials k (total_trials_num direction fne index) = inr l
    /\ (fold_right Z.add 0 (map (segment_length tci) (TS.train_trials l))
        + fold_right Z.add 0 (map (segment_length tci) (TS.valid_trials l))
        + fold_right Z.add 0 (map (segment_length tci) (TS.test_trials l))
        = Z.of_nat (length index))%Z.
Proof.
  intros Hn Hk tci.
  set (n := total_trials_num direction fne index) in *.
  exists (fold_left (add_fold k) (TS.outer_folds n) TS.locals0).
  split; [apply for_each_spec; [apply outer_folds_long; exact Hn | exact Hk]|].
  assert (Hne : index <> []).
  { intros ->. vm_compute in Hn. lia. }
  pose proof (@fold_left_add_fold_permutation k (TS.outer_folds n) TS.locals0 Hk) as Hp.
  rewrite concat_outer_folds in Hp. cbn [all_assigned TS.locals0 app] in Hp.
  change (TS.train_trials TS.locals0 ++ TS.valid_trials TS.locals0
            ++ TS.test_trials TS.locals0) with (@nil nat) in Hp.
  unfold all_assigned in Hp. cbn [app] in Hp.
  apply (sum_permutation (segment_length tci)) in Hp.
  rewrite !sum_app in Hp. rewrite Z.add_assoc in Hp. rewrite Hp.
  pose proof (trial_change_idx_sorted direction fne Hne) as Hs.
  destruct (trial_change_idx_ends direction fne index) as [H0 Hlast].
  rewrite <- (@rows_count _ tci index (seq 0 n) Hs H0 Hlast).
  - unfold tci, n. rewrite (all_rows direction fne index Hne eq_refl). reflexivity.
  - intros i Hi. apply in_seq in Hi. unfold tci.
    rewrite trial_change_idx_length. fold n. lia.
Qed.

End RowsOfSplits.

Lemma splits_cover_rows_witness :
  9 <= total_trials_num snd zne (alternating_index 18) /\ (0 <= 2 < 3)%Z
  /\ exists l,
      TS.fold_trials 2 (total_trials_num snd zne (alternating_index 18)) = inr l
      /\ (fold_right Z.add 0
            (map (segment_length (trial_change_idx snd zne (alternating_index 18)))
                 (TS.train_trials l))
          + fold_right Z.add 0
              (map (segment_length (trial_change_idx snd zne (alternating_index 18)))
                   (TS.valid_trials l))
          + fold_right Z.add 0
              (map (segment_length (trial_change_idx snd zne (alternating_index 18)))
                   (TS.test_trials l))
          = 18)%Z.
Proof.
  assert (Hn : 9 <= total_trials_num snd zne (alternating_index 18))
    by (vm_compute; lia).
  assert (Hk : (0 <= 2 < 3)%Z) by lia.
  split; [exact Hn|]. split; [exact Hk|].
  exact (@splits_cover_rows _ _ snd zne (alternating_index 18) 2 Hn Hk).
Defined.
